(** * Time tracking and productivity aggregation: a shallow embedding

    The development follows the Express controllers of the backend
    ([timeController.ts], [statisticsController.ts], [taskController.ts]),
    its [SocketService], and the client code that consumes them (the
    pages and [statisticsService]).

    Modelling conventions.
    - Row identities, task ids and user ids are UUID strings in the
      application; here they are natural numbers, of which only equality
      is used.
    - A timestamp is the number of milliseconds since the epoch
      ([Date.getTime()]), an integer.  Arithmetic on such values is exact
      in JavaScript for every representable date, so [Z] is used.
    - The two tables are lists of rows.  A Supabase query is the
      composition of list filters that its [.eq], [.is], [.not], [.gte],
      [.lte] calls describe; [.single()] succeeds on exactly one row.
    - Calendar days are taken in UTC (the container's time zone): the key
      that [toLocaleDateString()] produces is represented by the day
      number, and [new Date(key)] is that day's midnight.
    - A quotient of two integers is the exact rational; [Math.floor] of
      a quotient is the integer floor division.
    - The store answers every query: a failure of the connection is not
      modelled, only the errors that a query reports by its own rules
      ([.single()] on a result that is not one row).
    - Logging and socket emission do not read or write the tables and are
      left out. *)

From Stdlib Require Import ZArith QArith Qround Lia Lqa.
From stdpp Require Import base decidable option list sorting gmap strings pretty.

Close Scope Q_scope.
Local Open Scope Z_scope.

(** ** Rows *)

Inductive Status := pending | in_progress | completed.
Inductive Priority := low | medium | high.

#[global] Instance Status_eq_dec : EqDecision Status.
Proof. solve_decision. Defined.
#[global] Instance Priority_eq_dec : EqDecision Priority.
Proof. solve_decision. Defined.

Module Task.
Record t := mk {
  id : nat;
  user_id : nat;
  status : Status;
  priority : Priority;
  created_at : Z;
  updated_at : Z
}.
End Task.

Module TimeEntry.
Record t := mk {
  id : nat;
  task_id : nat;
  user_id : nat;
  start_time : Z;
  end_time : option Z
}.

(** [.update({ end_time })] on one row. *)
Definition set_end_time (endTime : Z) (e : t) : t :=
  mk (id e) (task_id e) (user_id e) (start_time e) (Some endTime).
End TimeEntry.

#[global] Instance TimeEntry_eq_dec : EqDecision TimeEntry.t.
Proof. solve_decision. Defined.

Record Store := mkStore {
  tasks : list Task.t;
  time_entries : list TimeEntry.t
}.

(** ** The query builder *)

(** [.single()]: the row when the result has exactly one, an error
    (and [data: null]) otherwise. *)
Definition single {A} (rows : list A) : option A :=
  match rows with
  | [row] => Some row
  | _ => None
  end.

(** [.from('tasks').select('id').eq('id', task_id).eq('user_id', userId)] *)
Definition select_task (task_id userId : nat) (db : Store) : list Task.t :=
  filter (λ t, Task.id t = task_id ∧ Task.user_id t = userId) (tasks db).

(** [.from('time_entries').select('*').eq('task_id', task_id)
      .eq('user_id', userId).is('end_time', null)] *)
Definition select_active (task_id userId : nat) (db : Store) : list TimeEntry.t :=
  filter (λ e, TimeEntry.task_id e = task_id ∧ TimeEntry.user_id e = userId
               ∧ TimeEntry.end_time e = None) (time_entries db).

(** The identity the store gives a new row: one that no row has. *)
Definition new_id (rows : list TimeEntry.t) : nat :=
  S (max_list (TimeEntry.id <$> rows)).

(** [.insert([{ task_id, user_id, start_time }]).select()]: the column
    [end_time] takes its default, null. *)
Definition insert_entry (task_id userId : nat) (startTime : Z) (db : Store)
  : list TimeEntry.t * Store :=
  let row := TimeEntry.mk (new_id (time_entries db)) task_id userId startTime None in
  ([row], mkStore (tasks db) (time_entries db ++ [row])).

(** [.update({ end_time }).eq('id', id).select()] *)
Definition update_end_time (id : nat) (endTime : Z) (db : Store)
  : list TimeEntry.t * Store :=
  let upd e := if decide (TimeEntry.id e = id)
               then TimeEntry.set_end_time endTime e else e in
  (TimeEntry.set_end_time endTime <$> filter (λ e, TimeEntry.id e = id) (time_entries db),
   mkStore (tasks db) (upd <$> time_entries db)).

(** ** Responses *)

Inductive Response (A : Type) :=
  | json (body : A)
  | status (code : nat).
Arguments json {A} body.
Arguments status {A} code.

(** The body of a 200 response. *)
Definition body_of {A} (r : Response A) : option A :=
  match r with
  | json body => Some body
  | status _ => None
  end.

(** ** timeController: start, stop *)

Definition startTimeTracking (task_id userId : nat) (now : Z) (db : Store)
  : Response TimeEntry.t * Store :=
  match single (select_task task_id userId db) with
  | None => (status 404, db)
  | Some task =>
    match single (select_active task_id userId db) with
    | Some activeEntry => (status 400, db)
    | None =>
      let startTime := now in
      let '(rows, db') := insert_entry task_id userId startTime db in
      match single rows with
      | None => (status 500, db')
      | Some timeEntry => (json timeEntry, db')
      end
    end
  end.

Definition stopTimeTracking (task_id userId : nat) (now : Z) (db : Store)
  : Response TimeEntry.t * Store :=
  match single (select_active task_id userId db) with
  | None => (status 404, db)
  | Some timeEntry =>
    let endTime := now in
    let '(rows, db') := update_end_time (TimeEntry.id timeEntry) endTime db in
    match single rows with
    | None => (status 500, db')
    | Some updatedEntry => (json updatedEntry, db')
    end
  end.

(** ** The event loop: start requests interleaved at their awaits

    A handler runs without interruption between two [await]s; each
    [await] is one round trip to the store.  A request in flight is
    therefore described by the query it is about to issue. *)

Record StartRequest := mkStart {
  req_task_id : nat;
  req_userId : nat;
  req_now : Z
}.

Inductive StartPc :=
  | at_task_lookup
  | at_active_lookup
  | at_insert
  | responded (r : Response TimeEntry.t).

Definition start_step (rq : StartRequest) (pc : StartPc) (db : Store)
  : StartPc * Store :=
  match pc with
  | at_task_lookup =>
    match single (select_task (req_task_id rq) (req_userId rq) db) with
    | None => (responded (status 404), db)
    | Some task => (at_active_lookup, db)
    end
  | at_active_lookup =>
    match single (select_active (req_task_id rq) (req_userId rq) db) with
    | Some activeEntry => (responded (status 400), db)
    | None => (at_insert, db)
    end
  | at_insert =>
    let '(rows, db') :=
      insert_entry (req_task_id rq) (req_userId rq) (req_now rq) db in
    match single rows with
    | None => (responded (status 500), db')
    | Some timeEntry => (responded (json timeEntry), db')
    end
  | responded r => (responded r, db)
  end.

Record EventLoop := mkLoop {
  store : Store;
  in_flight : list (StartRequest * StartPc)
}.

(** The request at position [i] performs its next round trip. *)
Definition resume (st : EventLoop) (i : nat) : EventLoop :=
  match in_flight st !! i with
  | None => st
  | Some (rq, pc) =>
    let '(pc', db') := start_step rq pc (store st) in
    mkLoop db' (<[i := (rq, pc')]> (in_flight st))
  end.

Definition run (schedule : list nat) (st : EventLoop) : EventLoop :=
  foldl resume st schedule.

Definition accept (db : Store) (rqs : list StartRequest) : EventLoop :=
  mkLoop db ((λ rq, (rq, at_task_lookup)) <$> rqs).

(** ** Open entries and the store's integrity constraints *)

Definition is_open (e : TimeEntry.t) : Prop := TimeEntry.end_time e = None.

Definition open_entries (task_id : nat) (db : Store) : list TimeEntry.t :=
  filter (λ e, TimeEntry.task_id e = task_id ∧ is_open e) (time_entries db).

(** At most one open row per task. *)
Definition one_open_per_task (db : Store) : Prop :=
  ∀ task_id, (length (open_entries task_id db) ≤ 1)%nat.

(** At most one open row per task and user. *)
Definition one_open_per_pair (db : Store) : Prop :=
  ∀ task_id userId, (length (select_active task_id userId db) ≤ 1)%nat.

(** [e] is a running timer of the user on the task. *)
Definition active_entry (db : Store) (task_id userId : nat) (e : TimeEntry.t) : Prop :=
  e ∈ time_entries db ∧ TimeEntry.task_id e = task_id
  ∧ TimeEntry.user_id e = userId ∧ is_open e.

(** Primary keys of both tables. *)
Definition primary_keys (db : Store) : Prop :=
  NoDup (Task.id <$> tasks db) ∧ NoDup (TimeEntry.id <$> time_entries db).

(** Every time entry belongs to the owner of its task, which exists
    (the foreign keys [task_id], [user_id] of the schema). *)
Definition entries_of_owner (db : Store) : Prop :=
  ∀ e, e ∈ time_entries db →
    ∃ t, t ∈ tasks db ∧ Task.id t = TimeEntry.task_id e
         ∧ Task.user_id t = TimeEntry.user_id e.

Definition owns (db : Store) (userId task_id : nat) : Prop :=
  ∃ t, t ∈ tasks db ∧ Task.id t = task_id ∧ Task.user_id t = userId.

(** ** timeController: listing, and the client's view of it *)

(** [.eq('task_id', task_id).eq('user_id', userId)] *)
Definition select_entries (task_id userId : nat) (db : Store) : list TimeEntry.t :=
  filter (λ e, TimeEntry.task_id e = task_id ∧ TimeEntry.user_id e = userId)
         (time_entries db).

Definition newer_first (a b : TimeEntry.t) : Prop :=
  TimeEntry.start_time b ≤ TimeEntry.start_time a.

#[global] Instance newer_first_dec a b : Decision (newer_first a b).
Proof. unfold newer_first. apply _. Defined.

(** [.order('start_time', { ascending: false })] *)
Definition order_start_time_desc (rows : list TimeEntry.t) : list TimeEntry.t :=
  merge_sort newer_first rows.

Definition getTimeEntries (task_id userId : nat) (db : Store)
  : Response (list TimeEntry.t) :=
  match single (select_task task_id userId db) with
  | None => status 404
  | Some task => json (order_start_time_desc (select_entries task_id userId db))
  end.

(** The rows as [TimeTrackingPage] keeps them: [{ ...entry, duration_ms }]. *)
Record TimeEntryView := mkView {
  entry : TimeEntry.t;
  duration_ms : option Z
}.

(** The callback of [response.data.map] in [fetchTimeEntries].  The
    column [start_time] is never null, so [entry.start_time] is truthy
    and the two branches are told apart by [entry.end_time]. *)
Definition with_duration (dateNow : Z) (e : TimeEntry.t) : TimeEntryView :=
  match TimeEntry.end_time e with
  | Some end_time => mkView e (Some (end_time - TimeEntry.start_time e))
  | None => mkView e (Some (dateNow - TimeEntry.start_time e))
  end.

(** [fetchTimeEntries]: [None] when the request fails and the page only
    records the error. *)
Definition fetchTimeEntries (taskId userId : nat) (dateNow : Z) (db : Store)
  : option (list TimeEntryView) :=
  match getTimeEntries taskId userId db with
  | json data => Some (with_duration dateNow <$> data)
  | status _ => None
  end.

(** ** JavaScript numbers

    The handlers divide counts and durations.  A quotient is kept as an
    exact rational; the two values a division by zero would produce are
    kept apart from the finite ones, so that a guard that is missing
    shows in the result. *)

Inductive Number :=
  | Finite (q : Q)
  | Infinity
  | NaN.

(** [a / b] for two integers of which [a] is not negative. *)
Definition js_div (a b : Z) : Number :=
  if decide (b = 0) then (if decide (a = 0) then NaN else Infinity)
  else Finite (inject_Z a / inject_Z b)%Q.

(** [x * k] and [x / k] for a positive constant [k]. *)
Definition js_times (x : Number) (k : positive) : Number :=
  match x with
  | Finite q => Finite (q * inject_Z (Z.pos k))%Q
  | other => other
  end.

Definition js_over (x : Number) (k : positive) : Number :=
  match x with
  | Finite q => Finite (q / inject_Z (Z.pos k))%Q
  | other => other
  end.

(** ** statisticsController: task statistics *)

Module ByPriority.
Record t (A : Type) := mk { high : A; medium : A; low : A }.
Arguments mk {A} _ _ _.
Arguments high {A} _.
Arguments medium {A} _.
Arguments low {A} _.
End ByPriority.

Record TaskStatistics := mkTaskStatistics {
  total_tasks : nat;
  completed_tasks : nat;
  in_progress_tasks : nat;
  pending_tasks : nat;
  completion_rate : Number;
  tasks_by_priority : ByPriority.t nat;
  completion_rate_by_priority : ByPriority.t Number
}.

(** [.gte(column, start_date)] and [.lte(column, end_date)], each applied
    only when the query parameter is given.  A null column satisfies
    neither comparison. *)
Definition gte (column : option Z) (start_date : option Z) : Prop :=
  match start_date, column with
  | None, _ => True
  | Some d, Some c => d ≤ c
  | Some _, None => False
  end.

Definition lte (column : option Z) (end_date : option Z) : Prop :=
  match end_date, column with
  | None, _ => True
  | Some d, Some c => c ≤ d
  | Some _, None => False
  end.

#[global] Instance gte_dec c d : Decision (gte c d).
Proof. destruct d, c; simpl; apply _. Defined.
#[global] Instance lte_dec c d : Decision (lte c d).
Proof. destruct d, c; simpl; apply _. Defined.

(** [.from('tasks').select('*').eq('user_id', userId)] with the optional
    window on [created_at]. *)
Definition select_tasks (userId : nat) (start_date end_date : option Z) (db : Store)
  : list Task.t :=
  filter (λ t, Task.user_id t = userId
               ∧ gte (Some (Task.created_at t)) start_date
               ∧ lte (Some (Task.created_at t)) end_date) (tasks db).

Definition count {A} (P : A → Prop) `{∀ x, Decision (P x)} (l : list A) : nat :=
  length (filter P l).

(** The body of [getTaskStatistics] once the rows are fetched. *)
Definition taskStatistics (tasks : list Task.t) : TaskStatistics :=
  let totalTasks := length tasks in
  let completedTasks := count (λ task, Task.status task = completed) tasks in
  let inProgressTasks := count (λ task, Task.status task = in_progress) tasks in
  let pendingTasks := count (λ task, Task.status task = pending) tasks in
  let completionRate :=
    if decide (0 < totalTasks)%nat
    then js_times (js_div (Z.of_nat completedTasks) (Z.of_nat totalTasks)) 100
    else Finite 0 in
  let tasksByPriority := ByPriority.mk
    (count (λ task, Task.priority task = high) tasks)
    (count (λ task, Task.priority task = medium) tasks)
    (count (λ task, Task.priority task = low) tasks) in
  let rate p n :=
    if decide (0 < n)%nat
    then js_times
           (js_div (Z.of_nat (count (λ task, Task.priority task = p
                                             ∧ Task.status task = completed) tasks))
                   (Z.of_nat n)) 100
    else Finite 0 in
  let completionRateByPriority := ByPriority.mk
    (rate high (ByPriority.high tasksByPriority))
    (rate medium (ByPriority.medium tasksByPriority))
    (rate low (ByPriority.low tasksByPriority)) in
  mkTaskStatistics totalTasks completedTasks inProgressTasks pendingTasks
    completionRate tasksByPriority completionRateByPriority.

Definition getTaskStatistics (userId : nat) (start_date end_date : option Z)
  (db : Store) : Response TaskStatistics :=
  json (taskStatistics (select_tasks userId start_date end_date db)).

(** ** statisticsController: time statistics *)

#[global] Instance Priority_countable : Countable Priority.
Proof.
  refine (inj_countable'
    (λ p, match p with low => 0 | medium => 1 | high => 2 end)%nat
    (λ n, match n with 0 => low | 1 => medium | _ => high end)%nat _).
  by intros [].
Defined.

(** A row of [time_entries] with the embedded [tasks(...)] object of the
    select; the object is null when no task has the row's [task_id]. *)
Module Joined.
Record t := mk {
  row : TimeEntry.t;
  tasks : option Task.t
}.
Definition task_id (entry : t) : nat := TimeEntry.task_id (row entry).
Definition start_time (entry : t) : Z := TimeEntry.start_time (row entry).
Definition end_time (entry : t) : option Z := TimeEntry.end_time (row entry).
End Joined.

Definition embed_task (db : Store) (e : TimeEntry.t) : Joined.t :=
  Joined.mk e (head (filter (λ t, Task.id t = TimeEntry.task_id e) (tasks db))).

Definition is_closed (e : TimeEntry.t) : Prop := TimeEntry.end_time e ≠ None.

(** [.eq('user_id', userId).not('end_time', 'is', null)] with the optional
    [.gte('start_time', start_date)] and [.lte('end_time', end_date)]. *)
Definition closed_in_window (userId : nat) (start_date end_date : option Z)
  (e : TimeEntry.t) : Prop :=
  TimeEntry.user_id e = userId ∧ is_closed e
  ∧ gte (Some (TimeEntry.start_time e)) start_date
  ∧ lte (TimeEntry.end_time e) end_date.

Definition select_closed (userId : nat) (start_date end_date : option Z) (db : Store)
  : list Joined.t :=
  embed_task db <$> filter (closed_in_window userId start_date end_date) (time_entries db).

(** [new Date(v).getTime()]; [new Date(null)] is the epoch. *)
Definition getTime (v : option Z) : Z := default 0 v.

(** [new Date(entry.end_time).getTime() - new Date(entry.start_time).getTime()] *)
Definition duration (entry : Joined.t) : Z :=
  getTime (Joined.end_time entry) - getTime (Some (Joined.start_time entry)).

Definition MS_PER_DAY : Z := 1000 * 60 * 60 * 24.
Definition MS_PER_HOUR : positive := 1000 * 60 * 60.

Definition day_number (ts : Z) : Z := ts / MS_PER_DAY.

(** [toLocaleDateString('en-US', { weekday: 'long' })]; the epoch was a
    Thursday. *)
Definition weekday (ts : Z) : string :=
  match (day_number ts + 4) mod 7 with
  | 0 => "Sunday"
  | 1 => "Monday"
  | 2 => "Tuesday"
  | 3 => "Wednesday"
  | 4 => "Thursday"
  | 5 => "Friday"
  | _ => "Saturday"
  end.

(** [acc[key] = (acc[key] || 0) + amount] *)
Definition accumulate `{Countable K} (key : K) (amount : Z) (acc : gmap K Z) : gmap K Z :=
  <[key := default 0 (acc !! key) + amount]> acc.

Record TimeStatistics := mkTimeStatistics {
  total_time_ms : Z;
  total_time_hours : Number;
  time_by_priority : gmap Priority Z;
  average_time_per_task_ms : Number;
  average_time_per_task_hours : Number;
  time_by_day : gmap string Z
}.

(** The body of [getTimeStatistics] once the rows are fetched; [None]
    when reading [entry.tasks.priority] of a null [tasks] throws. *)
Definition timeStatistics (timeEntries : list Joined.t) : option TimeStatistics :=
  let totalTimeMs := foldl (λ total entry, total + duration entry) 0 timeEntries in
  timeByPriority ←
    foldl (λ acc entry,
             acc ← acc;
             task ← Joined.tasks entry;
             Some (accumulate (Task.priority task) (duration entry) acc))
          (Some ∅) timeEntries;
  let uniqueTasks : gset nat := list_to_set (Joined.task_id <$> timeEntries) in
  let averageTimePerTask :=
    if decide (0 < size uniqueTasks)%nat
    then js_div totalTimeMs (Z.of_nat (size uniqueTasks))
    else Finite 0 in
  let timeByDay :=
    foldl (λ acc entry,
             accumulate (weekday (Joined.start_time entry)) (duration entry) acc)
          ∅ timeEntries in
  Some (mkTimeStatistics totalTimeMs (js_over (Finite (inject_Z totalTimeMs)) MS_PER_HOUR)
          timeByPriority averageTimePerTask (js_over averageTimePerTask MS_PER_HOUR)
          timeByDay).

Definition getTimeStatistics (userId : nat) (start_date end_date : option Z)
  (db : Store) : Response TimeStatistics :=
  match timeStatistics (select_closed userId start_date end_date db) with
  | Some statistics => json statistics
  | None => status 500
  end.

(** ** statisticsController: productivity metrics *)

Record ProductivityMetrics := mkProductivityMetrics {
  total_completed_tasks : nat;
  tasks_per_day : gmap Z nat;
  average_tasks_per_day : Number;
  current_streak : nat;
  longest_streak : nat
}.

(** [.eq('user_id', userId).eq('status', 'completed')] with the optional
    window on [updated_at]. *)
Definition select_completed (userId : nat) (start_date end_date : option Z)
  (db : Store) : list Task.t :=
  filter (λ t, Task.user_id t = userId ∧ Task.status t = completed
               ∧ gte (Some (Task.updated_at t)) start_date
               ∧ lte (Some (Task.updated_at t)) end_date) (tasks db).

(** [acc[day] = (acc[day] || 0) + 1] with [day] the completion day. *)
Definition tally (acc : gmap Z nat) (task : Task.t) : gmap Z nat :=
  let day := day_number (Task.updated_at task) in
  <[day := (default 0 (acc !! day) + 1)%nat]> acc.

(** [new Date(day)] for a key of [tasksPerDay]: that day's midnight. *)
Definition midnight (day : Z) : Z := day * MS_PER_DAY.

(** [array[i]] for an integer [i]: undefined outside the array. *)
Definition at_index {A} (array : list A) (i : Z) : option A :=
  if decide (i < 0) then None else array !! Z.to_nat i.

(** One turn of the [for] loop over [dates], on the pair
    [(tempStreak, longestStreak)]. *)
Definition streak_turn (dates : list Z) (st : nat * nat) (i : nat) : nat * nat :=
  let '(tempStreak, longestStreak) := st in
  if decide (i = 0%nat) then (1%nat, longestStreak)
  else
    let diffDays := (dates !!! i - dates !!! (i - 1)%nat) / MS_PER_DAY in
    let tempStreak := if decide (diffDays = 1) then S tempStreak else 1%nat in
    (tempStreak, Nat.max longestStreak tempStreak).

Definition streak_loop (dates : list Z) : nat * nat :=
  foldl (streak_turn dates) (0%nat, 0%nat) (seq 0 (length dates)).

(** The body of [getProductivityMetrics] once the rows are fetched;
    [None] when [lastDate.getTime()] is called on undefined.  The keys of
    [tasksPerDay] are sorted before use, so the order in which the object
    lists them plays no part. *)
Definition productivityMetrics (completedTasks : list Task.t) (today : Z)
  : option ProductivityMetrics :=
  let tasksPerDay := foldl tally ∅ completedTasks in
  let uniqueDays := size tasksPerDay in
  let averageTasksPerDay :=
    if decide (0 < uniqueDays)%nat
    then js_div (Z.of_nat (length completedTasks)) (Z.of_nat uniqueDays)
    else Finite 0 in
  let dates := merge_sort Z.le (midnight <$> elements (dom tasksPerDay)) in
  let '(tempStreak, longestStreak) := streak_loop dates in
  lastDate ← at_index dates (Z.of_nat (length dates) - 1);
  let diffDays := (today - lastDate) / MS_PER_DAY in
  let currentStreak := if decide (diffDays ≤ 1) then tempStreak else 0%nat in
  Some (mkProductivityMetrics (length completedTasks) tasksPerDay
          averageTasksPerDay currentStreak longestStreak).

Definition getProductivityMetrics (userId : nat) (start_date end_date : option Z)
  (today : Z) (db : Store) : Response ProductivityMetrics :=
  match productivityMetrics (select_completed userId start_date end_date db) today with
  | Some metrics => json metrics
  | None => status 500
  end.

(** ** The specification's vocabulary

    The definitions of this part follow the words of the specification;
    the theorems compare them with the handlers above. *)

(** Duration of an entry: [end_time − start_time] once closed. *)
Definition closed_duration (e : TimeEntry.t) : option Z :=
  (λ end_time, end_time - TimeEntry.start_time e) <$> TimeEntry.end_time e.

Definition sum_of (amounts : list Z) : Z := foldr Z.add 0 amounts.

(** The number of distinct task ids among entries. *)
Definition distinct_tasks (entries : list TimeEntry.t) : nat :=
  length (remove_dups (TimeEntry.task_id <$> entries)).

(** The distinct completion dates, ascending. *)
Definition completion_days (completedTasks : list Task.t) : list Z :=
  merge_sort Z.le (remove_dups ((day_number ∘ Task.updated_at) <$> completedTasks)).

(** The running streak along ascending dates: one more when the gap to
    the previous date is exactly one day, back to 1 otherwise. *)
Fixpoint running_after (prev : Z) (streak : nat) (days : list Z) : list nat :=
  match days with
  | [] => []
  | day :: days' =>
    let streak' := if decide (day - prev = 1) then S streak else 1%nat in
    streak' :: running_after day streak' days'
  end.

Definition running_streaks (days : list Z) : list nat :=
  match days with
  | [] => []
  | day :: days' => 1%nat :: running_after day 1 days'
  end.

Definition final_running (days : list Z) : nat := default 0%nat (last (running_streaks days)).
Definition max_running (days : list Z) : nat := max_list (running_streaks days).

(** ** Sample stores and requests *)

Definition sample_task : Task.t := Task.mk 7 1 in_progress high 0 0.

(** One task of user 1, no time entry. *)
Definition idle_db : Store := mkStore [sample_task] [].

(** The same task with a timer running since instant 100. *)
Definition running_db : Store :=
  mkStore [sample_task] [TimeEntry.mk 1 7 1 100 None].

(** Two closed entries of 30 and 90 minutes and a running one. *)
Definition history_db : Store :=
  mkStore [sample_task]
    [TimeEntry.mk 1 7 1 0 (Some 1800000);
     TimeEntry.mk 2 7 1 2000000 (Some 7400000);
     TimeEntry.mk 3 7 1 8000000 None].

Definition first_start : StartRequest := mkStart 7 1 100.
Definition second_start : StartRequest := mkStart 7 1 101.

(** Both lookups of both requests are answered before either insert. *)
Definition racing_schedule : list nat := [0; 0; 1; 1; 0; 1]%nat.

(** A task of user 1 completed one hour into day [day]. *)
Definition done_on (id : nat) (day : Z) : Task.t :=
  Task.mk id 1 completed high 0 (day * MS_PER_DAY + 3600000).

(** Completions on days 1, 2 and 5, and a task still pending. *)
Definition streak_db : Store :=
  mkStore [done_on 1 1; done_on 2 2; done_on 3 5; Task.mk 4 1 pending low 0 0] [].

(** ** timeController: the report *)

Module Report.
Record t := mk {
  time_entries : list Joined.t;
  total_time_ms : Z;
  total_time_hours : Number
}.
End Report.

(** [.eq('user_id', userId).not('end_time', 'is', null)] with the optional
    window, then [.order('start_time', { ascending: false })]; each row
    carries its [tasks(id, title)] object. *)
Definition select_report (userId : nat) (start_date end_date : option Z) (db : Store)
  : list Joined.t :=
  embed_task db
    <$> order_start_time_desc
          (filter (closed_in_window userId start_date end_date) (time_entries db)).

Definition getTimeReport (userId : nat) (start_date end_date : option Z) (db : Store)
  : Response Report.t :=
  let timeEntries := select_report userId start_date end_date db in
  let totalTime :=
    foldl (λ total entry,
             let start := getTime (Some (Joined.start_time entry)) in
             let end_ := getTime (Joined.end_time entry) in
             total + (end_ - start))
          0 timeEntries in
  json (Report.mk timeEntries totalTime
          (js_over (Finite (inject_Z totalTime)) MS_PER_HOUR)).

(** ** SocketService

    The socket.io server is described by the rooms each connected socket
    has joined; the room [user_<id>] is named by the id.  An emission is
    what a method of the service hands to the server: a message and the
    sockets it is addressed to, a room or everyone. *)

Inductive Payload :=
  | of_task (task : Task.t)
  | of_taskId (taskId : nat)
  | of_timeEntry (timeEntry : TimeEntry.t)
  | of_statistics (statistics : TaskStatistics).

Inductive Target :=
  | to_room (userId : nat)
  | to_everyone.

Record Emission := mkEmission {
  target : Target;
  event : string;
  payload : Payload
}.

Inductive SocketEvent :=
  | connection (socket : nat)
  | join (socket : nat) (userId : nat)
  | disconnect (socket : nat).

(** The handlers that [initialize] registers: a connected socket joins
    the room of whatever user id it sends. *)
Definition on_socket_event (rooms : gmap nat (gset nat)) (ev : SocketEvent)
  : gmap nat (gset nat) :=
  match ev with
  | connection socket => <[socket := ∅]> rooms
  | join socket userId => alter (λ joined, joined ∪ {[userId]}) socket rooms
  | disconnect socket => delete socket rooms
  end.

(** The state of [this.io] after [initialize] and a sequence of socket
    events. *)
Definition server_after (events : list SocketEvent) : gmap nat (gset nat) :=
  foldl on_socket_event ∅ events.

(** The sockets an emission reaches: [io.to(room).emit] reaches the
    sockets in the room, [io.emit] every connected socket. *)
Definition recipients (rooms : gmap nat (gset nat)) (tg : Target) : gset nat :=
  match tg with
  | to_room userId => dom (filter (λ kv, userId ∈ kv.2) rooms)
  | to_everyone => dom rooms
  end.

(** Each method returns without emitting while [this.io] is null. *)
Definition emitTaskCreated (io : option (gmap nat (gset nat))) (task : Task.t)
  : list Emission :=
  match io with
  | None => []
  | Some _ => [mkEmission (to_room (Task.user_id task)) "task:created" (of_task task)]
  end.

Definition emitTaskUpdated (io : option (gmap nat (gset nat))) (task : Task.t)
  : list Emission :=
  match io with
  | None => []
  | Some _ => [mkEmission (to_room (Task.user_id task)) "task:updated" (of_task task)]
  end.

Definition emitTaskDeleted (io : option (gmap nat (gset nat))) (taskId : nat)
  : list Emission :=
  match io with
  | None => []
  | Some _ => [mkEmission to_everyone "task:deleted" (of_taskId taskId)]
  end.

Definition emitTimeTrackingStarted (io : option (gmap nat (gset nat)))
  (timeEntry : TimeEntry.t) : list Emission :=
  match io with
  | None => []
  | Some _ => [mkEmission (to_room (TimeEntry.user_id timeEntry)) "time:started"
                 (of_timeEntry timeEntry)]
  end.

Definition emitTimeTrackingStopped (io : option (gmap nat (gset nat)))
  (timeEntry : TimeEntry.t) : list Emission :=
  match io with
  | None => []
  | Some _ => [mkEmission (to_room (TimeEntry.user_id timeEntry)) "time:stopped"
                 (of_timeEntry timeEntry)]
  end.

Definition emitStatisticsUpdated (io : option (gmap nat (gset nat))) (userId : nat)
  (statistics : TaskStatistics) : list Emission :=
  match io with
  | None => []
  | Some _ => [mkEmission (to_room userId) "statistics:updated"
                 (of_statistics statistics)]
  end.

(** The sockets an emission is delivered to. *)
Definition delivered_to (io : option (gmap nat (gset nat))) (e : Emission) : gset nat :=
  match io with
  | None => ∅
  | Some rooms => recipients rooms (target e)
  end.

(** ** taskController

    The rows of [tasks] are kept to the columns the statistics read;
    [title], [description] and [due_date] are written and returned by the
    handlers below but read by none of them. *)

Inductive Reply (A : Type) :=
  | reply (code : nat) (body : A)
  | failure (code : nat).
Arguments reply {A} code body.
Arguments failure {A} code.

#[global] Instance Task_eq_dec : EqDecision Task.t.
Proof. solve_decision. Defined.

(** The [{ data, error }] object of a query. *)
Record Result (A : Type) := mkResult {
  data : option A;
  error : bool
}.
Arguments mkResult {A} data error.
Arguments data {A} _.
Arguments error {A} _.

(** [.single()] as a result object: an error, and no data, unless the
    query has exactly one row. *)
Definition single_result {A} (rows : list A) : Result A :=
  match single rows with
  | Some row => mkResult (Some row) false
  | None => mkResult None true
  end.

Definition new_task_id (rows : list Task.t) : nat :=
  S (max_list (Task.id <$> rows)).

(** [.insert([{ user_id, title, description, priority, due_date,
    status: 'pending' }]).select()]; the store gives the row its id and
    stamps [created_at] and [updated_at] with the instant of the insert. *)
Definition insert_task (userId : nat) (priority : Priority) (now : Z) (db : Store)
  : list Task.t * Store :=
  let row := Task.mk (new_task_id (tasks db)) userId pending priority now now in
  ([row], mkStore (tasks db ++ [row]) (time_entries db)).

(** [.update(columns).eq('id', id).eq('user_id', userId).select()] *)
Definition update_task (id userId : nat) (columns : Task.t → Task.t) (db : Store)
  : list Task.t * Store :=
  (columns <$> select_task id userId db,
   mkStore ((λ t, if decide (Task.id t = id ∧ Task.user_id t = userId)
                  then columns t else t) <$> tasks db)
           (time_entries db)).

(** [.delete().eq('id', id).eq('user_id', userId)]: the rows of [tasks]
    that go.  What the schema does to the time entries of a deleted task
    is not in the source; they are left in place here. *)
Definition delete_task (id userId : nat) (db : Store) : Store :=
  mkStore (filter (λ t, ¬ (Task.id t = id ∧ Task.user_id t = userId)) (tasks db))
          (time_entries db).

Definition set_priority (priority : Priority) (t : Task.t) : Task.t :=
  Task.mk (Task.id t) (Task.user_id t) (Task.status t) priority
          (Task.created_at t) (Task.updated_at t).

Definition set_status (status : Status) (t : Task.t) : Task.t :=
  Task.mk (Task.id t) (Task.user_id t) status (Task.priority t)
          (Task.created_at t) (Task.updated_at t).

(** The value of [status] in a request body, when it is one of
    ['pending', 'in_progress', 'completed']. *)
Definition status_of_string (status : string) : option Status :=
  if decide (status = "pending") then Some pending
  else if decide (status = "in_progress") then Some in_progress
  else if decide (status = "completed") then Some completed
  else None.

Definition created_first (a b : Task.t) : Prop :=
  Task.created_at b ≤ Task.created_at a.

#[global] Instance created_first_dec a b : Decision (created_first a b).
Proof. unfold created_first. apply _. Defined.

Definition createTask (io : option (gmap nat (gset nat))) (userId : nat)
  (priority : Priority) (now : Z) (db : Store)
  : Reply Task.t * Store * list Emission :=
  let '(rows, db') := insert_task userId priority now db in
  let result := single_result rows in
  if error result then (failure 500, db', [])
  else match data result with
       | Some task => (reply 201 task, db', emitTaskCreated io task)
       | None => (failure 500, db', [])
       end.

Definition getTasks (userId : nat) (db : Store) : Reply (list Task.t) :=
  reply 200 (merge_sort created_first
               (filter (λ t, Task.user_id t = userId) (tasks db))).

Definition getTask (id userId : nat) (db : Store) : Reply Task.t :=
  let result := single_result (select_task id userId db) in
  if error result then failure 500
  else match data result with
       | None => failure 404
       | Some task => reply 200 task
       end.

Definition updateTask (io : option (gmap nat (gset nat))) (id userId : nat)
  (priority : Priority) (db : Store) : Reply Task.t * Store * list Emission :=
  let '(rows, db') := update_task id userId (set_priority priority) db in
  let result := single_result rows in
  if error result then (failure 500, db', [])
  else match data result with
       | None => (failure 404, db', [])
       | Some task => (reply 200 task, db', emitTaskUpdated io task)
       end.

Definition updateTaskStatus (io : option (gmap nat (gset nat))) (id userId : nat)
  (status : string) (db : Store) : Reply Task.t * Store * list Emission :=
  match status_of_string status with
  | None => (failure 400, db, [])
  | Some value =>
    let '(rows, db') := update_task id userId (set_status value) db in
    let result := single_result rows in
    if error result then (failure 500, db', [])
    else match data result with
         | None => (failure 404, db', [])
         | Some task => (reply 200 task, db', emitTaskUpdated io task)
         end
  end.

Definition deleteTask (io : option (gmap nat (gset nat))) (id userId : nat)
  (db : Store) : Reply string * Store * list Emission :=
  let db' := delete_task id userId db in
  (reply 200 "Task deleted successfully", db', emitTaskDeleted io id).

(** ** The time and statistics handlers with their emissions *)

Definition start_emits (io : option (gmap nat (gset nat)))
  (response : Response TimeEntry.t) : list Emission :=
  match response with
  | json timeEntry => emitTimeTrackingStarted io timeEntry
  | status _ => []
  end.

Definition stop_emits (io : option (gmap nat (gset nat)))
  (response : Response TimeEntry.t) : list Emission :=
  match response with
  | json updatedEntry => emitTimeTrackingStopped io updatedEntry
  | status _ => []
  end.

Definition statistics_emits (io : option (gmap nat (gset nat))) (userId : nat)
  (response : Response TaskStatistics) : list Emission :=
  match response with
  | json statistics => emitStatisticsUpdated io userId statistics
  | status _ => []
  end.

(** A request of an authenticated user, past the validation of its
    route. *)
Inductive Request :=
  | start_timer (task_id : nat)
  | stop_timer (task_id : nat)
  | list_entries (task_id : nat)
  | time_report (start_date end_date : option Z)
  | task_statistics (start_date end_date : option Z)
  | time_statistics (start_date end_date : option Z)
  | productivity_metrics (start_date end_date : option Z)
  | create_task (priority : Priority)
  | list_tasks
  | get_task (id : nat)
  | update_task_fields (id : nat) (priority : Priority)
  | update_task_status (id : nat) (status : string)
  | remove_task (id : nat).

(** What serving a request does to the store and hands to the socket
    server. *)
Definition serve (io : option (gmap nat (gset nat))) (userId : nat) (now : Z)
  (rq : Request) (db : Store) : Store * list Emission :=
  match rq with
  | start_timer task_id =>
    let '(response, db') := startTimeTracking task_id userId now db in
    (db', start_emits io response)
  | stop_timer task_id =>
    let '(response, db') := stopTimeTracking task_id userId now db in
    (db', stop_emits io response)
  | task_statistics start_date end_date =>
    (db, statistics_emits io userId (getTaskStatistics userId start_date end_date db))
  | create_task priority =>
    let '(_, db', emissions) := createTask io userId priority now db in (db', emissions)
  | update_task_fields id priority =>
    let '(_, db', emissions) := updateTask io id userId priority db in (db', emissions)
  | update_task_status id value =>
    let '(_, db', emissions) := updateTaskStatus io id userId value db in (db', emissions)
  | remove_task id =>
    let '(_, db', emissions) := deleteTask io id userId db in (db', emissions)
  | list_entries _ | time_report _ _ | time_statistics _ _
  | productivity_metrics _ _ | list_tasks | get_task _ => (db, [])
  end.

(** ** Pages *)

(** [findActiveTimeEntry] of the time tracking page: the first entry
    without [end_time] among the listings of the tasks, in their order;
    [None] when a listing request is rejected, which ends the loop with
    an exception. *)
Fixpoint findActiveTimeEntry (tasks : list Task.t) (userId : nat) (db : Store)
  : option (option TimeEntry.t) :=
  match tasks with
  | [] => Some None
  | task :: tasks' =>
    match getTimeEntries (Task.id task) userId db with
    | status _ => None
    | json entries =>
      match list_find (λ e, TimeEntry.end_time e = None) entries with
      | Some (_, active) => Some (Some active)
      | None => findActiveTimeEntry tasks' userId db
      end
    end
  end.

(** [fetchTasks] of the time tracking page: the tasks and
    [active?.task_id || null]; [None] when a request fails and the page
    only records the error. *)
Definition fetchTasks (userId : nat) (db : Store) : option (list Task.t * option nat) :=
  match getTasks userId db with
  | failure _ => None
  | reply _ data =>
    match findActiveTimeEntry data userId db with
    | None => None
    | Some active => Some (data, TimeEntry.task_id <$> active)
    end
  end.

(** The event names the pages subscribe to with [socket.on]. *)
Definition tasks_page_listens : list string :=
  ["task:created"; "task:updated"; "task:deleted"].

Definition dashboard_listens : list string :=
  ["task_updated"; "time_tracking_updated"].

(** The total of the report over all time, when it is served. *)
Definition reported_total (userId : nat) (db : Store) : option Z :=
  Report.total_time_ms <$> body_of (getTimeReport userId None None db).

(** ** statisticsService of the client

    [startOfDay] and [endOfDay] of date-fns: the first and the last
    millisecond of the day of [date], the day being taken in UTC here as
    on the server. *)

Definition startOfDay (date : Z) : Z := midnight (day_number date).
Definition endOfDay (date : Z) : Z := midnight (day_number date + 1) - 1.

(** A rejected request (any status outside 2xx) throws; [None] is that
    exception. *)
Definition statisticsService_getTaskStatistics (userId : nat) (date : Z) (db : Store)
  : option TaskStatistics :=
  body_of (getTaskStatistics userId (Some (startOfDay date)) (Some (endOfDay date)) db).

Definition statisticsService_getTimeStatistics (userId : nat) (date : Z) (db : Store)
  : option TimeStatistics :=
  body_of (getTimeStatistics userId (Some (startOfDay date)) (Some (endOfDay date)) db).

(** The default values of the [catch] block. *)
Definition no_metrics : ProductivityMetrics :=
  mkProductivityMetrics 0 ∅ (Finite 0) 0 0.

(** [date] is the page's target date, [now] the instant the request is
    built and [today] the instant the server handles it. *)
Definition statisticsService_getProductivityMetrics (userId : nat)
  (date now today : Z) (db : Store) : ProductivityMetrics :=
  let startDate := date - 30 * MS_PER_DAY in
  match getProductivityMetrics userId (Some (startOfDay startDate)) (Some now) today db
  with
  | json data => data
  | status _ => no_metrics
  end.

(** ** formatDuration of the pages *)

(** [Math.floor] *)
Definition js_floor (x : Q) : Z := Qfloor x.

(** [x % k] for a positive constant [k]: the remainder has the sign of
    [x]. *)
Definition js_mod (x : Q) (k : positive) : Q :=
  let quotient := (x / inject_Z (Z.pos k))%Q in
  let truncated := if Qle_bool 0 quotient then Qfloor quotient else Qceiling quotient in
  (x - inject_Z truncated * inject_Z (Z.pos k))%Q.

Definition MS_PER_MINUTE : positive := 1000 * 60.

Definition formatDuration (ms : Q) : string :=
  let hours := js_floor (ms / inject_Z (Z.pos MS_PER_HOUR))%Q in
  let minutes := js_floor (js_mod ms MS_PER_HOUR / inject_Z (Z.pos MS_PER_MINUTE))%Q in
  pretty hours +:+ "h " +:+ pretty minutes +:+ "m".

(** ** Sums of breakdowns and sequences of timer requests *)

(** The sum of the amounts of a breakdown. *)
Definition breakdown_total `{Countable K} (m : gmap K Z) : Z :=
  map_fold (λ _ amount total, amount + total) 0 m.

(** The sum of the counts per day. *)
Definition tally_total (m : gmap Z nat) : nat :=
  map_fold (λ _ n total, (n + total)%nat) 0%nat m.

(** A start or a stop request for one task by one user, taken at an
    instant. *)
Inductive TimerCall :=
  | press_start (now : Z)
  | press_stop (now : Z).

(** The requests served one after the other: the responses, and the
    store at the end. *)
Fixpoint run_calls (task_id userId : nat) (calls : list TimerCall) (db : Store)
  : list (Response TimeEntry.t) * Store :=
  match calls with
  | [] => ([], db)
  | call :: calls' =>
    let '(response, db') :=
      match call with
      | press_start now => startTimeTracking task_id userId now db
      | press_stop now => stopTimeTracking task_id userId now db
      end in
    let '(responses, db'') := run_calls task_id userId calls' db' in
    (response :: responses, db'')
  end.

(** The store the interleaved start requests leave behind. *)
Definition raced_db : Store :=
  store (run racing_schedule (accept idle_db [first_start; second_start])).

(** A socket that connected and joined the room of user 1. *)
Definition one_listener : list SocketEvent := [connection 5; join 5 1].

(** * Properties *)

(** ** Auxiliary facts about queries *)

Lemma single_Some {A} (rows : list A) (x : A) : single rows = Some x ↔ rows = [x].
Proof.
  destruct rows as [|y [|z rows]]; simpl; split; intros E; try discriminate;
    by simplify_eq.
Qed.

Lemma single_None {A} (rows : list A) : single rows = None ↔ length rows ≠ 1%nat.
Proof.
  destruct rows as [|y [|z rows]]; simpl; split; intros E; try done; lia.
Qed.

Lemma filter_none {A} (P : A → Prop) `{∀ x, Decision (P x)} (l : list A) :
  (∀ x, x ∈ l → ¬ P x) → filter P l = [].
Proof.
  induction l as [|a l IH]; intros Hno; [done|].
  rewrite filter_cons_False; [|apply Hno; left].
  apply IH. intros x Hx. apply Hno. by right.
Qed.

Lemma filter_at_most_one {A} (P : A → Prop) `{∀ x, Decision (P x)} (l : list A) :
  NoDup l →
  (∀ x y, x ∈ l → y ∈ l → P x → P y → x = y) →
  (length (filter P l) ≤ 1)%nat.
Proof.
  induction 1 as [|a l Hnotin Hnd IH]; intros Huniq; [simpl; lia|].
  rewrite filter_cons. destruct (decide (P a)) as [Pa|nPa].
  - assert (filter P l = []) as ->; [|simpl; lia].
    apply filter_none. intros x Hx Px.
    assert (a = x) by (apply Huniq; [left|right| |]; done).
    by subst.
  - apply IH. intros x y Hx Hy. apply Huniq; by right.
Qed.

Lemma key_injective {A} (key : A → nat) (l : list A) (x y : A) :
  NoDup (key <$> l) → x ∈ l → y ∈ l → key x = key y → x = y.
Proof.
  induction l as [|a l IH]; [by intros _ ?%elem_of_nil|].
  rewrite fmap_cons, NoDup_cons.
  intros [Hnotin Hnd] [->|Hx]%elem_of_cons [->|Hy]%elem_of_cons Hk; auto.
  - destruct Hnotin. rewrite Hk. by apply list_elem_of_fmap_2.
  - destruct Hnotin. rewrite <- Hk. by apply list_elem_of_fmap_2.
Qed.

Lemma NoDup_of_keys {A} (key : A → nat) (l : list A) : NoDup (key <$> l) → NoDup l.
Proof. apply NoDup_fmap_1. Qed.

Lemma new_id_fresh (rows : list TimeEntry.t) (e : TimeEntry.t) :
  e ∈ rows → (TimeEntry.id e < new_id rows)%nat.
Proof.
  intros He. unfold new_id.
  assert (TimeEntry.id e ≤ max_list (TimeEntry.id <$> rows))%nat; [|lia].
  apply max_list_elem_of_le. by apply list_elem_of_fmap_2.
Qed.

(** On a table with a primary key, the task lookup of [start] and of the
    listing finds a row exactly when the user owns the task. *)
Lemma task_lookup_owns (db : Store) (task_id userId : nat) :
  NoDup (Task.id <$> tasks db) →
  is_Some (single (select_task task_id userId db)) ↔ owns db userId task_id.
Proof.
  intros Hpk. unfold owns, select_task. split.
  - intros [t Ht]. apply single_Some in Ht.
    assert (t ∈ filter (λ t, Task.id t = task_id ∧ Task.user_id t = userId) (tasks db))
      as Hin by (rewrite Ht; left).
    apply list_elem_of_filter in Hin as [[? ?] ?]. eauto.
  - intros (t & Hin & Hid & Hu).
    pose proof (filter_at_most_one
      (λ t, Task.id t = task_id ∧ Task.user_id t = userId) (tasks db)
      (NoDup_of_keys _ _ Hpk)) as Hle.
    assert (t ∈ filter (λ t, Task.id t = task_id ∧ Task.user_id t = userId) (tasks db))
      as Hf by (apply list_elem_of_filter; done).
    destruct (filter _ (tasks db)) as [|a [|b l]] eqn:E.
    + by apply elem_of_nil in Hf.
    + by eexists.
    + exfalso. simpl in Hle.
      assert (2 ≤ 1)%nat; [|lia]. etrans; [|apply Hle]; [lia|].
      intros x y Hx Hy [Hx1 _] [Hy1 _].
      apply (key_injective Task.id (tasks db)); congruence.
Qed.

(** ** Stopping a timer *)

Lemma stop_inversion (task_id userId : nat) (now : Z) (db db' : Store)
  (updatedEntry : TimeEntry.t) :
  stopTimeTracking task_id userId now db = (json updatedEntry, db') →
  ∃ timeEntry,
    select_active task_id userId db = [timeEntry]
    ∧ filter (λ e, TimeEntry.id e = TimeEntry.id timeEntry) (time_entries db) = [timeEntry]
    ∧ updatedEntry = TimeEntry.set_end_time now timeEntry
    ∧ db' = snd (update_end_time (TimeEntry.id timeEntry) now db).
Proof.
  unfold stopTimeTracking.
  destruct (single (select_active task_id userId db)) as [timeEntry|] eqn:Hfind;
    [|discriminate].
  apply single_Some in Hfind. simpl.
  destruct (single (TimeEntry.set_end_time now <$> _)) as [u|] eqn:Hupd;
    [|discriminate].
  intros [= -> <-]. exists timeEntry.
  apply single_Some in Hupd.
  assert (timeEntry ∈ select_active task_id userId db) as Hin by (rewrite Hfind; left).
  apply list_elem_of_filter in Hin as [_ Hin].
  assert (timeEntry ∈ filter (λ e, TimeEntry.id e = TimeEntry.id timeEntry) (time_entries db))
    as Hmine by (by apply list_elem_of_filter).
  destruct (filter _ (time_entries db)) as [|x [|y l]]; try discriminate.
  apply list_elem_of_singleton in Hmine as <-.
  simpl in Hupd. by simplify_eq.
Qed.

(** C10: a successful stop returns the matched open entry with only
    [end_time] changed (to the instant of the call); [id], [task_id],
    [user_id] and [start_time] are those of the matched entry, the stored
    row is the returned one, and no other row and no task is touched. *)
Theorem stop_changes_only_end_time (task_id userId : nat) (now : Z) (db db' : Store)
  (updatedEntry : TimeEntry.t) :
  stopTimeTracking task_id userId now db = (json updatedEntry, db') →
  ∃ timeEntry,
    timeEntry ∈ time_entries db
    ∧ TimeEntry.task_id timeEntry = task_id
    ∧ TimeEntry.user_id timeEntry = userId
    ∧ is_open timeEntry
    ∧ TimeEntry.id updatedEntry = TimeEntry.id timeEntry
    ∧ TimeEntry.task_id updatedEntry = TimeEntry.task_id timeEntry
    ∧ TimeEntry.user_id updatedEntry = TimeEntry.user_id timeEntry
    ∧ TimeEntry.start_time updatedEntry = TimeEntry.start_time timeEntry
    ∧ TimeEntry.end_time updatedEntry = Some now
    ∧ tasks db' = tasks db
    ∧ time_entries db' =
        (λ r, if decide (r = timeEntry) then updatedEntry else r) <$> time_entries db.
Proof.
  intros (timeEntry & Hfind & Hkey & -> & ->)%stop_inversion.
  exists timeEntry.
  assert (timeEntry ∈ select_active task_id userId db) as Hin by (rewrite Hfind; left).
  apply list_elem_of_filter in Hin as [(Ht & Hu & Ho) Hin].
  repeat split; try done.
  simpl. apply Forall_fmap_ext, Forall_forall. intros r Hr.
  destruct (decide (TimeEntry.id r = TimeEntry.id timeEntry)) as [Hid|Hid].
  - assert (r ∈ [timeEntry]) as ->%list_elem_of_singleton
      by (rewrite <- Hkey; by apply list_elem_of_filter).
    by rewrite decide_True.
  - rewrite decide_False; [done|]. by intros ->.
Qed.

Lemma stop_changes_only_end_time_witness :
  ∃ timeEntry,
    timeEntry ∈ time_entries running_db
    ∧ TimeEntry.task_id timeEntry = 7%nat
    ∧ TimeEntry.user_id timeEntry = 1%nat
    ∧ is_open timeEntry
    ∧ TimeEntry.id (TimeEntry.mk 1 7 1 100 (Some 250)) = TimeEntry.id timeEntry
    ∧ TimeEntry.task_id (TimeEntry.mk 1 7 1 100 (Some 250)) = TimeEntry.task_id timeEntry
    ∧ TimeEntry.user_id (TimeEntry.mk 1 7 1 100 (Some 250)) = TimeEntry.user_id timeEntry
    ∧ TimeEntry.start_time (TimeEntry.mk 1 7 1 100 (Some 250)) = TimeEntry.start_time timeEntry
    ∧ TimeEntry.end_time (TimeEntry.mk 1 7 1 100 (Some 250)) = Some 250
    ∧ tasks (mkStore [sample_task] [TimeEntry.mk 1 7 1 100 (Some 250)]) = tasks running_db
    ∧ time_entries (mkStore [sample_task] [TimeEntry.mk 1 7 1 100 (Some 250)]) =
        (λ r, if decide (r = timeEntry) then TimeEntry.mk 1 7 1 100 (Some 250) else r)
          <$> time_entries running_db.
Proof.
  apply (stop_changes_only_end_time 7 1 250 running_db). reflexivity.
Defined.

(** ** Starting a timer *)

Lemma no_active_of_no_open (task_id userId : nat) (db : Store) :
  open_entries task_id db = [] → select_active task_id userId db = [].
Proof.
  intros Hnone. apply filter_none. intros e He (Ht & _ & Ho).
  eapply (filter_nil_not_elem_of _ _ e Hnone); done.
Qed.

Lemma start_inserts (task_id userId : nat) (now : Z) (db : Store) :
  is_Some (single (select_task task_id userId db)) →
  single (select_active task_id userId db) = None →
  startTimeTracking task_id userId now db =
    (json (TimeEntry.mk (new_id (time_entries db)) task_id userId now None),
     mkStore (tasks db)
       (time_entries db
        ++ [TimeEntry.mk (new_id (time_entries db)) task_id userId now None])).
Proof.
  intros [t Ht] Hnone. unfold startTimeTracking. by rewrite Ht, Hnone.
Qed.

Lemma stop_fresh_row (task_id userId : nat) (t1 t2 : Z) (db : Store) :
  select_active task_id userId db = [] →
  let started := TimeEntry.mk (new_id (time_entries db)) task_id userId t1 None in
  stopTimeTracking task_id userId t2
    (mkStore (tasks db) (time_entries db ++ [started])) =
  (json (TimeEntry.set_end_time t2 started),
   mkStore (tasks db) (time_entries db ++ [TimeEntry.set_end_time t2 started])).
Proof.
  intros Hnone started. unfold stopTimeTracking, select_active. simpl.
  rewrite filter_app. fold (select_active task_id userId db). rewrite Hnone.
  rewrite filter_cons_True by done. simpl.
  rewrite filter_app, filter_cons_True by done.
  assert (filter (λ e, TimeEntry.id e = new_id (time_entries db)) (time_entries db) = [])
    as ->.
  { apply filter_none. intros e He%new_id_fresh. lia. }
  simpl. f_equal. f_equal. rewrite fmap_app. simpl.
  rewrite decide_True by done. f_equal.
  rewrite <- (list_fmap_id (time_entries db)) at 2.
  apply Forall_fmap_ext, Forall_forall. intros e He%new_id_fresh.
  rewrite decide_False; [done|lia].
Qed.

(** C3: on a task of the caller with no open entry, start followed by
    stop succeeds twice and leaves the table as it was plus exactly one
    row, closed, whose duration, however a consumer derives it, is
    [end_time − start_time] of the two calls. *)
Theorem start_then_stop_round_trip (task_id userId : nat) (t1 t2 : Z) (db : Store) :
  NoDup (Task.id <$> tasks db) →
  owns db userId task_id →
  open_entries task_id db = [] →
  ∃ started closed db1 db2,
    startTimeTracking task_id userId t1 db = (json started, db1)
    ∧ stopTimeTracking task_id userId t2 db1 = (json closed, db2)
    ∧ tasks db2 = tasks db
    ∧ time_entries db2 = time_entries db ++ [closed]
    ∧ TimeEntry.id closed = TimeEntry.id started
    ∧ TimeEntry.task_id closed = task_id
    ∧ TimeEntry.start_time closed = t1
    ∧ TimeEntry.end_time closed = Some t2
    ∧ closed_duration closed = Some (t2 - t1)
    ∧ duration (embed_task db2 closed) = t2 - t1
    ∧ ∀ dateNow, duration_ms (with_duration dateNow closed) = Some (t2 - t1).
Proof.
  intros Hpk Hown Hidle.
  pose proof (no_active_of_no_open task_id userId db Hidle) as Hnone.
  eexists _, _, _, _. split.
  { apply start_inserts; [by apply task_lookup_owns|]. by rewrite Hnone. }
  split; [by apply stop_fresh_row|].
  repeat split.
Qed.

Lemma start_then_stop_round_trip_witness :
  ∃ started closed db1 db2,
    startTimeTracking 7 1 100 idle_db = (json started, db1)
    ∧ stopTimeTracking 7 1 250 db1 = (json closed, db2)
    ∧ tasks db2 = tasks idle_db
    ∧ time_entries db2 = time_entries idle_db ++ [closed]
    ∧ TimeEntry.id closed = TimeEntry.id started
    ∧ TimeEntry.task_id closed = 7%nat
    ∧ TimeEntry.start_time closed = 100
    ∧ TimeEntry.end_time closed = Some 250
    ∧ closed_duration closed = Some (250 - 100)
    ∧ duration (embed_task db2 closed) = 250 - 100
    ∧ ∀ dateNow, duration_ms (with_duration dateNow closed) = Some (250 - 100).
Proof.
  apply (start_then_stop_round_trip 7 1 100 250 idle_db).
  - simpl. apply NoDup_singleton.
  - exists sample_task. repeat split. left.
  - reflexivity.
Defined.

(** ** Outcomes of start and stop *)

Lemma select_active_spec (db : Store) (task_id userId : nat) (e : TimeEntry.t) :
  e ∈ select_active task_id userId db ↔ active_entry db task_id userId e.
Proof.
  unfold select_active, active_entry, is_open.
  rewrite list_elem_of_filter. tauto.
Qed.

Lemma active_lookup_none (db : Store) (task_id userId : nat) :
  one_open_per_pair db →
  single (select_active task_id userId db) = None
  ↔ ¬ ∃ e, active_entry db task_id userId e.
Proof.
  intros Hinv. specialize (Hinv task_id userId).
  setoid_rewrite <- select_active_spec.
  destruct (select_active task_id userId db) as [|x [|y l]]; simpl in *.
  - split; [|done]. intros _ [e He]. by apply elem_of_nil in He.
  - split; [done|]. intros []. exists x. left.
  - lia.
Qed.

Lemma active_lookup_some (db : Store) (task_id userId : nat) (e : TimeEntry.t) :
  one_open_per_pair db →
  active_entry db task_id userId e →
  select_active task_id userId db = [e].
Proof.
  intros Hinv He%select_active_spec. specialize (Hinv task_id userId).
  destruct (select_active task_id userId db) as [|x [|y l]]; simpl in *.
  - by apply elem_of_nil in He.
  - by apply list_elem_of_singleton in He as ->.
  - lia.
Qed.

Lemma rows_of_id (db : Store) (e : TimeEntry.t) :
  NoDup (TimeEntry.id <$> time_entries db) →
  e ∈ time_entries db →
  filter (λ r, TimeEntry.id r = TimeEntry.id e) (time_entries db) = [e].
Proof.
  intros Hpk He.
  pose proof (filter_at_most_one (λ r, TimeEntry.id r = TimeEntry.id e)
    (time_entries db) (NoDup_of_keys _ _ Hpk)) as Hle.
  assert (e ∈ filter (λ r, TimeEntry.id r = TimeEntry.id e) (time_entries db)) as Hin
    by (by apply list_elem_of_filter).
  destruct (filter _ (time_entries db)) as [|x [|y l]].
  - by apply elem_of_nil in Hin.
  - by apply list_elem_of_singleton in Hin as ->.
  - exfalso. assert (2 ≤ 1)%nat; [|lia]. etrans; [|apply Hle]; [simpl; lia|].
    intros a b Ha Hb Hka Hkb.
    apply (key_injective TimeEntry.id (time_entries db)); congruence.
Qed.

(** The claim C2 read literally makes Conflict depend on the open entry
    alone.  A caller who does not own the task is answered 404 although
    the task has a running timer. *)
Lemma start_conflict_needs_ownership :
  ¬ (fst (startTimeTracking 7 2 300 running_db) = status 400
     ↔ ∃ e, e ∈ time_entries running_db ∧ TimeEntry.task_id e = 7%nat ∧ is_open e).
Proof.
  intros [_ Hconflict].
  assert (fst (startTimeTracking 7 2 300 running_db) = status 400) as Habs.
  { apply Hconflict. exists (TimeEntry.mk 1 7 1 100 None). repeat split. left. }
  vm_compute in Habs. discriminate.
Qed.

(** C2, amended: on a store with its primary keys and at most one open
    entry per task and user,
    - start answers 404 exactly when the caller owns no task of that id;
    - start answers 400 exactly when the caller owns the task and has a
      running timer on it;
    - otherwise start appends and returns a row of that task and user
      with [start_time = now] and no [end_time];
    - stop answers 404 exactly when the caller has no running timer on
      the task;
    - otherwise stop sets [end_time = now] on that very row and returns it. *)
Theorem start_stop_outcomes (task_id userId : nat) (now : Z) (db : Store) :
  primary_keys db →
  one_open_per_pair db →
  (fst (startTimeTracking task_id userId now db) = status 404
     ↔ ¬ owns db userId task_id)
  ∧ (fst (startTimeTracking task_id userId now db) = status 400
     ↔ owns db userId task_id ∧ ∃ e, active_entry db task_id userId e)
  ∧ (owns db userId task_id → (¬ ∃ e, active_entry db task_id userId e) →
     ∃ timeEntry,
       startTimeTracking task_id userId now db =
         (json timeEntry, mkStore (tasks db) (time_entries db ++ [timeEntry]))
       ∧ TimeEntry.task_id timeEntry = task_id
       ∧ TimeEntry.user_id timeEntry = userId
       ∧ TimeEntry.start_time timeEntry = now
       ∧ TimeEntry.end_time timeEntry = None
       ∧ TimeEntry.id timeEntry ∉ TimeEntry.id <$> time_entries db)
  ∧ (fst (stopTimeTracking task_id userId now db) = status 404
     ↔ ¬ ∃ e, active_entry db task_id userId e)
  ∧ (∀ e, active_entry db task_id userId e →
     ∃ db',
       stopTimeTracking task_id userId now db =
         (json (TimeEntry.set_end_time now e), db')
       ∧ tasks db' = tasks db
       ∧ time_entries db' =
           (λ r, if decide (r = e) then TimeEntry.set_end_time now e else r)
             <$> time_entries db).
Proof.
  intros [Hpk_tasks Hpk_entries] Hinv.
  pose proof (task_lookup_owns db task_id userId Hpk_tasks) as Hown.
  pose proof (active_lookup_none db task_id userId Hinv) as Hnone.
  split; [|split; [|split; [|split]]].
  - rewrite <- Hown. unfold startTimeTracking.
    destruct (single (select_task task_id userId db)) as [t|] eqn:Ht.
    + split; [|intros []; by eexists].
      destruct (single (select_active task_id userId db)); simpl; discriminate.
    + split; [|done]. by intros _ [? ?].
  - rewrite <- Hown. unfold startTimeTracking.
    destruct (single (select_task task_id userId db)) as [t|] eqn:Ht.
    + destruct (single (select_active task_id userId db)) as [a|] eqn:Ha.
      * split; [|done]. intros _. split; [by eexists|].
        apply single_Some in Ha. exists a.
        apply select_active_spec. rewrite Ha. left.
      * split; [discriminate|]. intros [_ Hsome]. by apply Hnone in Hsome.
    + split; [discriminate|]. by intros [[? ?] _].
  - intros Howns%Hown Hno%Hnone. eexists. split; [by apply start_inserts|].
    repeat split. simpl. intros (e & Heq & He%new_id_fresh)%list_elem_of_fmap. lia.
  - rewrite <- Hnone. unfold stopTimeTracking.
    destruct (single (select_active task_id userId db)) as [a|] eqn:Ha; [|done].
    split; [|done]. unfold update_end_time. simpl.
    destruct (single (TimeEntry.set_end_time now <$> _)); simpl; discriminate.
  - intros e He. pose proof He as (Hin & _).
    unfold stopTimeTracking, update_end_time.
    rewrite (active_lookup_some db task_id userId e Hinv He). simpl.
    rewrite (rows_of_id db e Hpk_entries Hin). simpl.
    eexists. split; [done|]. split; [done|]. simpl.
    apply Forall_fmap_ext, Forall_forall. intros r Hr.
    destruct (decide (TimeEntry.id r = TimeEntry.id e)) as [Hid|Hid].
    + rewrite decide_True; [by rewrite (key_injective TimeEntry.id _ r e Hpk_entries)|].
      by apply (key_injective TimeEntry.id (time_entries db)).
    + rewrite decide_False; [done|]. by intros ->.
Qed.

Lemma start_stop_outcomes_witness :
  primary_keys running_db ∧ one_open_per_pair running_db
  ∧ (fst (startTimeTracking 7 1 250 running_db) = status 404
       ↔ ¬ owns running_db 1 7)
  ∧ (fst (startTimeTracking 7 1 250 running_db) = status 400
       ↔ owns running_db 1 7 ∧ ∃ e, active_entry running_db 7 1 e)
  ∧ (fst (stopTimeTracking 7 1 250 running_db) = status 404
       ↔ ¬ ∃ e, active_entry running_db 7 1 e).
Proof.
  assert (primary_keys running_db) as Hpk.
  { split; simpl; apply NoDup_singleton. }
  assert (one_open_per_pair running_db) as Hinv.
  { intros t u. unfold select_active. etrans; [apply length_filter|]. simpl. lia. }
  destruct (start_stop_outcomes 7 1 250 running_db Hpk Hinv)
    as (H404 & H400 & _ & Hstop & _).
  exact (conj Hpk (conj Hinv (conj H404 (conj H400 Hstop)))).
Defined.

(** ** Interleaved start requests *)

(** A request that is alone on the event loop behaves as the handler
    read from top to bottom. *)
Lemma run_alone (rq : StartRequest) (db : Store) :
  run [0; 0; 0]%nat (accept db [rq]) =
  mkLoop (snd (startTimeTracking (req_task_id rq) (req_userId rq) (req_now rq) db))
    [(rq, responded
            (fst (startTimeTracking (req_task_id rq) (req_userId rq) (req_now rq) db)))].
Proof.
  unfold run, accept, resume, startTimeTracking. simpl.
  destruct (single (select_task _ _ db)); simpl; [|done].
  destruct (single (select_active _ _ db)); simpl; done.
Qed.

(** One start at a time keeps the invariant: the caller's lookup sees
    every open entry of the task, because entries belong to the task's
    owner. *)
Lemma start_keeps_one_open_per_task (task_id userId : nat) (now : Z) (db : Store) :
  primary_keys db →
  entries_of_owner db →
  one_open_per_task db →
  one_open_per_task (snd (startTimeTracking task_id userId now db)).
Proof.
  intros [Hpk _] Hfk Hinv. unfold startTimeTracking.
  destruct (single (select_task task_id userId db)) as [t|] eqn:Ht; [|done].
  destruct (single (select_active task_id userId db)) as [a|] eqn:Ha; [done|].
  simpl. intros task'. unfold open_entries. simpl. rewrite filter_app, length_app.
  destruct (decide (task_id = task')) as [<-|Hother].
  - assert (open_entries task_id db = []) as Hidle.
    { apply filter_none. intros e He [Htask Hopen].
      destruct (Hfk e He) as (t' & Ht' & Hid & Huser).
      assert (owns db userId task_id) as (t0 & Ht0 & Hid0 & Hu0)
        by (apply task_lookup_owns; [done|by eexists]).
      assert (t' = t0) as -> by (apply (key_injective Task.id (tasks db)); congruence).
      assert (e ∈ select_active task_id userId db) as Hin.
      { apply select_active_spec. repeat split; [done|done|congruence|done]. }
      apply single_None in Ha.
      assert (length (select_active task_id userId db) ≤ length (open_entries task_id db))%nat.
      { unfold select_active, open_entries.
        rewrite <- (list_filter_filter_l
          (λ e, TimeEntry.task_id e = task_id ∧ TimeEntry.user_id e = userId
                ∧ TimeEntry.end_time e = None)
          (λ e, TimeEntry.task_id e = task_id ∧ is_open e)) by (unfold is_open; tauto).
        apply length_filter. }
      specialize (Hinv task_id).
      destruct (select_active task_id userId db) as [|x [|y l]]; simpl in *;
        [by apply elem_of_nil in Hin|lia|lia]. }
    unfold open_entries in Hidle. rewrite Hidle. simpl.
    etrans; [apply length_filter|]. simpl. lia.
  - rewrite filter_cons_False by (simpl; tauto). simpl.
    specialize (Hinv task'). unfold open_entries in Hinv. lia.
Qed.

(** C1: two start requests for the same idle task, interleaved so that
    both lookups for an active entry are answered before either insert,
    are both answered with a new entry; the table then holds two open
    rows of that task.  The lookup and the insert are two round trips,
    not one conditional write. *)
Theorem concurrent_starts_leave_two_open_entries :
  let final := run racing_schedule (accept idle_db [first_start; second_start]) in
  one_open_per_task idle_db
  ∧ in_flight final =
      [(first_start, responded (json (TimeEntry.mk 1 7 1 100 None)));
       (second_start, responded (json (TimeEntry.mk 2 7 1 101 None)))]
  ∧ open_entries 7 (store final) =
      [TimeEntry.mk 1 7 1 100 None; TimeEntry.mk 2 7 1 101 None]
  ∧ ¬ one_open_per_task (store final).
Proof.
  repeat split.
  - intros t. simpl. lia.
  - intros Hinv. specialize (Hinv 7%nat). vm_compute in Hinv. lia.
Qed.

(** ** Listing the entries of a task *)

#[global] Instance newer_first_transitive : Transitive newer_first.
Proof. unfold newer_first. intros a b c. lia. Qed.

#[global] Instance newer_first_total : Total newer_first.
Proof. unfold newer_first. intros a b. lia. Qed.

Lemma entry_with_duration (dateNow : Z) (e : TimeEntry.t) :
  entry (with_duration dateNow e) = e.
Proof. unfold with_duration. by destruct (TimeEntry.end_time e). Qed.

Lemma entries_with_duration (dateNow : Z) (data : list TimeEntry.t) :
  entry <$> (with_duration dateNow <$> data) = data.
Proof.
  rewrite <- list_fmap_compose. rewrite <- (list_fmap_id data) at 2.
  apply list_fmap_ext. intros _ e _. apply entry_with_duration.
Qed.

(** C9: when the listing is served, the page holds the caller's entries
    of the task (each of them, once), newest first, and every open entry
    carries the time elapsed since its start as its duration; a closed
    entry carries [end_time − start_time]. *)
Theorem listing_newest_first_with_elapsed (taskId userId : nat) (dateNow : Z)
  (db : Store) (views : list TimeEntryView) :
  fetchTimeEntries taskId userId dateNow db = Some views →
  getTimeEntries taskId userId db = json (entry <$> views)
  ∧ StronglySorted newer_first (entry <$> views)
  ∧ entry <$> views ≡ₚ select_entries taskId userId db
  ∧ (∀ v, v ∈ views → is_open (entry v) →
       duration_ms v = Some (dateNow - TimeEntry.start_time (entry v)))
  ∧ (∀ v, v ∈ views → duration_ms v ≠ None)
  ∧ (∀ v, v ∈ views → ¬ is_open (entry v) →
       duration_ms v = closed_duration (entry v)).
Proof.
  unfold fetchTimeEntries.
  destruct (getTimeEntries taskId userId db) as [data|code] eqn:Hget; [|discriminate].
  intros [= <-]. rewrite entries_with_duration.
  assert (data = order_start_time_desc (select_entries taskId userId db)) as Hdata.
  { unfold getTimeEntries in Hget.
    destruct (single (select_task taskId userId db)); by simplify_eq. }
  split; [done|]. split; [|split].
  - rewrite Hdata. apply StronglySorted_merge_sort; apply _.
  - rewrite Hdata. apply merge_sort_Permutation.
  - repeat split; intros v (e & -> & He)%list_elem_of_fmap;
      unfold with_duration, is_open, closed_duration;
      destruct (TimeEntry.end_time e) eqn:Hend; simpl; rewrite ?Hend; try done.
Qed.

Lemma listing_newest_first_with_elapsed_witness :
  fetchTimeEntries 7 1 9000000 history_db =
    Some [mkView (TimeEntry.mk 3 7 1 8000000 None) (Some 1000000);
          mkView (TimeEntry.mk 2 7 1 2000000 (Some 7400000)) (Some 5400000);
          mkView (TimeEntry.mk 1 7 1 0 (Some 1800000)) (Some 1800000)]
  ∧ StronglySorted newer_first
      [TimeEntry.mk 3 7 1 8000000 None;
       TimeEntry.mk 2 7 1 2000000 (Some 7400000);
       TimeEntry.mk 1 7 1 0 (Some 1800000)].
Proof.
  assert (fetchTimeEntries 7 1 9000000 history_db =
    Some [mkView (TimeEntry.mk 3 7 1 8000000 None) (Some 1000000);
          mkView (TimeEntry.mk 2 7 1 2000000 (Some 7400000)) (Some 5400000);
          mkView (TimeEntry.mk 1 7 1 0 (Some 1800000)) (Some 1800000)]) as Hfetch
    by (vm_compute; reflexivity).
  split; [exact Hfetch|].
  exact (proj1 (proj2 (listing_newest_first_with_elapsed 7 1 9000000 history_db _ Hfetch))).
Defined.

(** ** The streak loop *)

Lemma midnight_gap (prev day : Z) :
  (midnight day - midnight prev) / MS_PER_DAY = day - prev.
Proof.
  unfold midnight. rewrite <- Z.mul_sub_distr_r. by apply Z.div_mul.
Qed.

Lemma today_gap (today day : Z) :
  (today - midnight day) / MS_PER_DAY = day_number today - day.
Proof.
  unfold midnight, day_number.
  replace (today - day * MS_PER_DAY) with (today + (- day) * MS_PER_DAY) by lia.
  rewrite Z.div_add by done. lia.
Qed.

(** The turns of the loop from index [length pre + 1] on, when the date
    at index [length pre] is [prev]. *)
Lemma streak_turns_after (pre : list Z) (prev : Z) (rest : list Z)
  (tempStreak longestStreak : nat) :
  foldl (streak_turn (midnight <$> (pre ++ prev :: rest)))
        (tempStreak, longestStreak) (seq (S (length pre)) (length rest))
  = (default tempStreak (last (running_after prev tempStreak rest)),
     Nat.max longestStreak (max_list (running_after prev tempStreak rest))).
Proof.
  revert pre prev tempStreak longestStreak.
  induction rest as [|day rest IH]; intros pre prev tempStreak longestStreak.
  { simpl. f_equal. lia. }
  cbn [length seq foldl running_after].
  assert ((midnight <$> (pre ++ prev :: day :: rest)) !!! S (length pre) = midnight day)
    as Hcur.
  { apply list_lookup_total_correct. rewrite list_lookup_fmap.
    rewrite lookup_app_r by lia.
    replace (S (length pre) - length pre)%nat with 1%nat by lia. done. }
  assert ((midnight <$> (pre ++ prev :: day :: rest)) !!! length pre = midnight prev)
    as Hprev.
  { apply list_lookup_total_correct. rewrite list_lookup_fmap.
    rewrite lookup_app_r by lia. by rewrite Nat.sub_diag. }
  unfold streak_turn at 2. rewrite decide_False by lia.
  replace (S (length pre) - 1)%nat with (length pre) by lia.
  rewrite Hcur, Hprev, midnight_gap.
  set (streak' := if decide (day - prev = 1) then S tempStreak else 1%nat).
  specialize (IH (pre ++ [prev]) day streak' (Nat.max longestStreak streak')).
  rewrite <- app_assoc, length_app in IH. simpl in IH.
  replace (length pre + 1)%nat with (S (length pre)) in IH by lia.
  rewrite IH. rewrite last_cons. simpl.
  destruct (last (running_after day streak' rest)); simpl; f_equal; lia.
Qed.

Lemma streak_loop_days (day : Z) (days : list Z) :
  streak_loop (midnight <$> (day :: days)) =
  (final_running (day :: days), max_list (running_after day 1 days)).
Proof.
  unfold streak_loop. rewrite length_fmap. cbn [length seq foldl].
  unfold streak_turn at 2. rewrite decide_True by done.
  etrans; [apply (streak_turns_after [] day days 1 0)|].
  unfold final_running. cbn [running_streaks]. rewrite last_cons.
  by destruct (last (running_after day 1 days)).
Qed.

Lemma running_after_positive (prev : Z) (streak : nat) (days : list Z) :
  Forall (λ s, 1 ≤ s)%nat (running_after prev streak days).
Proof.
  revert prev streak. induction days as [|day days IH]; intros prev streak; simpl.
  - constructor.
  - constructor; [destruct (decide _); lia|apply IH].
Qed.

Lemma final_running_positive (day : Z) (days : list Z) :
  (1 ≤ final_running (day :: days))%nat.
Proof.
  unfold final_running. cbn [running_streaks]. rewrite last_cons.
  destruct (last (running_after day 1 days)) as [s|] eqn:Hlast; simpl; [|lia].
  pose proof (running_after_positive day 1 days) as Hpos.
  rewrite Forall_forall in Hpos. apply Hpos. by eapply last_Some_elem_of.
Qed.

(** ** The completion days *)

Lemma dom_tally (acc : gmap Z nat) (completedTasks : list Task.t) :
  dom (foldl tally acc completedTasks) =
  dom acc ∪ list_to_set ((day_number ∘ Task.updated_at) <$> completedTasks).
Proof.
  revert acc. induction completedTasks as [|task rest IH]; intros acc; simpl.
  - by rewrite (right_id_L ∅ (∪)).
  - rewrite IH. unfold tally. rewrite dom_insert_L.
    by rewrite (assoc_L (∪)), (comm_L (∪) (dom acc)).
Qed.

Lemma keys_are_completion_days (completedTasks : list Task.t) :
  elements (dom (foldl tally ∅ completedTasks))
  ≡ₚ remove_dups ((day_number ∘ Task.updated_at) <$> completedTasks).
Proof.
  apply NoDup_Permutation; [apply NoDup_elements|apply NoDup_remove_dups|].
  intros day. rewrite elem_of_elements, dom_tally, elem_of_remove_dups.
  rewrite dom_empty_L, elem_of_union, elem_of_list_to_set.
  split; [|by right]. intros [Hempty|Hday]; [|done].
  by apply not_elem_of_empty in Hempty.
Qed.

Lemma dates_are_completion_days (completedTasks : list Task.t) :
  merge_sort Z.le (midnight <$> elements (dom (foldl tally ∅ completedTasks)))
  = midnight <$> completion_days completedTasks.
Proof.
  apply (Sorted_unique Z.le).
  - apply Sorted_merge_sort; apply _.
  - apply (Sorted_fmap _ Z.le Z.le).
    + intros x y Hxy. unfold midnight, MS_PER_DAY. lia.
    + apply Sorted_merge_sort; apply _.
  - rewrite merge_sort_Permutation. unfold completion_days.
    rewrite merge_sort_Permutation. by rewrite keys_are_completion_days.
Qed.

Lemma completion_days_nonempty (task : Task.t) (rest : list Task.t) :
  completion_days (task :: rest) ≠ [].
Proof.
  intros Hnil.
  assert (day_number (Task.updated_at task) ∈ completion_days (task :: rest)) as Hin.
  { unfold completion_days. rewrite merge_sort_Permutation, elem_of_remove_dups.
    simpl. left. }
  rewrite Hnil in Hin. by apply elem_of_nil in Hin.
Qed.

Lemma at_last_index {A} (array : list A) :
  array ≠ [] → at_index array (Z.of_nat (length array) - 1) = last array.
Proof.
  intros Hne. unfold at_index. destruct array as [|x array]; [done|].
  rewrite decide_False by (simpl; lia). rewrite last_lookup. f_equal. simpl. lia.
Qed.

(** What the handler computes on a non-empty result, in the words of the
    specification. *)
Lemma productivityMetrics_days (task : Task.t) (rest : list Task.t) (today : Z) :
  ∃ firstDay days lastDay,
    completion_days (task :: rest) = firstDay :: days
    ∧ last (firstDay :: days) = Some lastDay
    ∧ productivityMetrics (task :: rest) today =
        Some (mkProductivityMetrics
                (length (task :: rest))
                (foldl tally ∅ (task :: rest))
                (if decide (0 < size (foldl tally ∅ (task :: rest)))%nat
                 then js_div (Z.of_nat (length (task :: rest)))
                             (Z.of_nat (size (foldl tally ∅ (task :: rest))))
                 else Finite 0)
                (if decide (day_number today - lastDay ≤ 1)
                 then final_running (firstDay :: days) else 0%nat)
                (max_list (running_after firstDay 1 days))).
Proof.
  pose proof (completion_days_nonempty task rest) as Hne.
  destruct (completion_days (task :: rest)) as [|firstDay days] eqn:Hdays; [done|].
  destruct (last (firstDay :: days)) as [lastDay|] eqn:Hlast;
    [|by rewrite last_cons in Hlast; destruct (last days)].
  exists firstDay, days, lastDay. split; [done|]. split; [done|].
  unfold productivityMetrics.
  rewrite dates_are_completion_days, Hdays, streak_loop_days.
  rewrite at_last_index by done. rewrite fmap_last, Hlast. simpl.
  by rewrite today_gap.
Qed.

(** ** Productivity metrics *)

(** C4: with no completed task in the window the handler does not
    produce metrics: [dates] is empty, [dates[dates.length - 1]] is
    undefined, the call of [getTime] on it throws and the request is
    answered 500. *)
Theorem no_completed_task_is_answered_500 (userId : nat)
  (start_date end_date : option Z) (today : Z) :
  productivityMetrics [] today = None
  ∧ getProductivityMetrics userId start_date end_date today (mkStore [] []) = status 500
  ∧ getProductivityMetrics 1 None None today idle_db = status 500.
Proof. repeat split. Qed.

(** C5: all completions on one day.  The first turn of the loop sets the
    running streak to 1 and skips the update of the maximum, so
    [longest_streak] stays 0 while the largest running streak is 1 (and
    [current_streak], when the day is recent, is 1). *)
Theorem one_completion_day_longest_streak_0 (task : Task.t) (today : Z) :
  max_running (completion_days [task]) = 1%nat
  ∧ longest_streak <$> productivityMetrics [task] today = Some 0%nat
  ∧ current_streak <$> productivityMetrics [task] (Task.updated_at task) = Some 1%nat
  ∧ longest_streak <$>
      body_of (getProductivityMetrics 1 None None (midnight 1 + 7200000)
                 (mkStore [done_on 1 1] []))
    = Some 0%nat.
Proof.
  assert (completion_days [task] = [day_number (Task.updated_at task)]) as Hdays
    by reflexivity.
  split; [by rewrite Hdays|]. split; [|split; [|reflexivity]].
  - destruct (productivityMetrics_days task [] today)
      as (firstDay & days & lastDay & Hd & _ & ->).
    rewrite Hdays in Hd. by simplify_eq.
  - destruct (productivityMetrics_days task [] (Task.updated_at task))
      as (firstDay & days & lastDay & Hd & Hlast & ->).
    rewrite Hdays in Hd. simplify_eq. simpl in *. simplify_eq.
    rewrite decide_True by lia. done.
Qed.

(** From two completion days on, the maximum the loop keeps is the
    largest running streak. *)
Lemma longest_streak_from_two_days (task : Task.t) (rest : list Task.t) (today : Z)
  (metrics : ProductivityMetrics) :
  productivityMetrics (task :: rest) today = Some metrics →
  (2 ≤ length (completion_days (task :: rest)))%nat →
  longest_streak metrics = max_running (completion_days (task :: rest)).
Proof.
  destruct (productivityMetrics_days task rest today)
    as (firstDay & days & lastDay & Hdays & _ & ->).
  intros [= <-]. rewrite Hdays. simpl. intros Hlen.
  unfold max_running. cbn [running_streaks max_list].
  destruct days as [|day days]; [simpl in Hlen; lia|].
  pose proof (running_after_positive firstDay 1 (day :: days)) as Hpos.
  simpl in *. apply Forall_cons_1 in Hpos as [Hpos _]. lia.
Qed.

(** C6: on a non-empty result the handler answers with metrics, and
    [current_streak] is the final running streak exactly when the most
    recent completion day is at most one day before today; it is 0
    otherwise. *)
Theorem current_streak_iff_recent (userId : nat) (start_date end_date : option Z)
  (today : Z) (db : Store) :
  select_completed userId start_date end_date db ≠ [] →
  ∃ metrics lastDay,
    getProductivityMetrics userId start_date end_date today db = json metrics
    ∧ last (completion_days (select_completed userId start_date end_date db))
      = Some lastDay
    ∧ (current_streak metrics
         = final_running (completion_days (select_completed userId start_date end_date db))
       ↔ day_number today - lastDay ≤ 1)
    ∧ (¬ day_number today - lastDay ≤ 1 → current_streak metrics = 0%nat).
Proof.
  unfold getProductivityMetrics.
  destruct (select_completed userId start_date end_date db) as [|task rest]; [done|].
  intros _.
  destruct (productivityMetrics_days task rest today)
    as (firstDay & days & lastDay & Hdays & Hlast & ->).
  eexists _, lastDay. split; [done|]. rewrite Hdays. split; [done|]. simpl.
  pose proof (final_running_positive firstDay days).
  destruct (decide (day_number today - lastDay ≤ 1)); split; try done; lia.
Qed.

Lemma current_streak_iff_recent_witness :
  select_completed 1 None None streak_db ≠ []
  ∧ ∃ metrics lastDay,
      getProductivityMetrics 1 None None (midnight 5 + 7200000) streak_db = json metrics
      ∧ last (completion_days (select_completed 1 None None streak_db)) = Some lastDay
      ∧ (current_streak metrics
           = final_running (completion_days (select_completed 1 None None streak_db))
         ↔ day_number (midnight 5 + 7200000) - lastDay ≤ 1)
      ∧ (¬ day_number (midnight 5 + 7200000) - lastDay ≤ 1
         → current_streak metrics = 0%nat).
Proof.
  assert (select_completed 1 None None streak_db ≠ []) as Hne by (vm_compute; discriminate).
  split; [exact Hne|].
  exact (current_streak_iff_recent 1 None None (midnight 5 + 7200000) streak_db Hne).
Defined.

Example streak_of_consecutive_days :
  (λ m, (current_streak m, longest_streak m))
    <$> productivityMetrics [done_on 1 1; done_on 2 2; done_on 3 3] (midnight 3 + 7200000)
  = Some (3%nat, 3%nat).
Proof. reflexivity. Qed.

Example streak_broken_then_resumed :
  (λ m, (current_streak m, longest_streak m))
    <$> productivityMetrics [done_on 1 1; done_on 2 2; done_on 3 5] (midnight 5 + 7200000)
  = Some (1%nat, 2%nat).
Proof. reflexivity. Qed.

(** ** Task statistics *)

Lemma percentage_bounds (c n : nat) :
  (c ≤ n)%nat →
  ∃ q, (if decide (0 < n)%nat
        then js_times (js_div (Z.of_nat c) (Z.of_nat n)) 100
        else Finite 0) = Finite q
       ∧ (0 <= q)%Q ∧ (q <= 100)%Q ∧ (n = 0%nat → q = 0%Q).
Proof.
  intros Hle. destruct (decide (0 < n)%nat) as [Hpos|Hzero].
  - unfold js_div. rewrite decide_False by lia. simpl. eexists. split; [done|].
    destruct (Z.of_nat n) as [|p|p] eqn:Hn; try lia.
    unfold Qle, Qdiv, Qmult, Qinv, inject_Z. simpl.
    repeat split; try lia.
  - exists 0%Q. repeat split; try done.
Qed.

(** The rates are percentages between 0 and 100, 0 for a bucket without
    tasks, and never [NaN]. *)
Lemma task_rates_bounded (tasks : list Task.t) :
  let statistics := taskStatistics tasks in
  (∃ q, completion_rate statistics = Finite q ∧ (0 <= q)%Q ∧ (q <= 100)%Q
        ∧ (tasks = [] → q = 0%Q))
  ∧ (∃ q, ByPriority.high (completion_rate_by_priority statistics) = Finite q
          ∧ (0 <= q)%Q ∧ (q <= 100)%Q
          ∧ (ByPriority.high (tasks_by_priority statistics) = 0%nat → q = 0%Q))
  ∧ (∃ q, ByPriority.medium (completion_rate_by_priority statistics) = Finite q
          ∧ (0 <= q)%Q ∧ (q <= 100)%Q
          ∧ (ByPriority.medium (tasks_by_priority statistics) = 0%nat → q = 0%Q))
  ∧ (∃ q, ByPriority.low (completion_rate_by_priority statistics) = Finite q
          ∧ (0 <= q)%Q ∧ (q <= 100)%Q
          ∧ (ByPriority.low (tasks_by_priority statistics) = 0%nat → q = 0%Q)).
Proof.
  assert (∀ p : Priority,
    (count (λ task, Task.priority task = p ∧ Task.status task = completed) tasks
     ≤ count (λ task, Task.priority task = p) tasks)%nat) as Hsub.
  { intros p. unfold count.
    rewrite <- (list_filter_filter_l
      (λ task, Task.priority task = p ∧ Task.status task = completed)
      (λ task, Task.priority task = p)) by tauto.
    apply length_filter. }
  simpl. repeat split.
  - destruct (percentage_bounds (count (λ task, Task.status task = completed) tasks)
                (length tasks)) as (q & Hq & H0 & H100 & Hz); [apply length_filter|].
    exists q. repeat split; try done. intros ->. by apply Hz.
  - apply percentage_bounds, Hsub.
  - apply percentage_bounds, Hsub.
  - apply percentage_bounds, Hsub.
Qed.

(** C7: the rates are multiplied by 100 in the handler.  A list with one
    task, completed, has completion rate 100 overall and in its priority
    bucket, which is not a fraction in [0,1]. *)
Theorem completed_task_has_rate_100 :
  completion_rate <$> body_of (getTaskStatistics 1 None None (mkStore [done_on 1 1] []))
    = Some (Finite 100)
  ∧ completion_rate (taskStatistics [done_on 1 1]) = Finite 100
  ∧ ByPriority.high (completion_rate_by_priority (taskStatistics [done_on 1 1]))
    = Finite 100
  ∧ ByPriority.low (completion_rate_by_priority (taskStatistics [done_on 1 1]))
    = Finite 0
  ∧ ¬ (100 <= 1)%Q.
Proof. repeat split. intros Hle. vm_compute in Hle. by apply Hle. Qed.

(** ** Time statistics *)

Lemma total_is_sum (rows : list Joined.t) (total : Z) :
  foldl (λ total entry, total + duration entry) total rows
  = total + sum_of (duration <$> rows).
Proof.
  revert total. induction rows as [|entry rows IH]; intros total.
  - unfold sum_of. simpl. lia.
  - cbn [foldl]. rewrite IH.
    change (sum_of (duration <$> entry :: rows))
      with (duration entry + sum_of (duration <$> rows)).
    lia.
Qed.

Lemma duration_of_closed (db : Store) (e : TimeEntry.t) :
  is_closed e → closed_duration e = Some (duration (embed_task db e)).
Proof.
  unfold is_closed, closed_duration, duration, Joined.end_time, Joined.start_time.
  simpl. by destruct (TimeEntry.end_time e).
Qed.

Lemma durations_of_closed (db : Store) (entries : list TimeEntry.t) :
  Forall is_closed entries →
  omap closed_duration entries = duration <$> (embed_task db <$> entries).
Proof.
  induction 1 as [|e entries He _ IH]; [done|].
  csimpl. rewrite (duration_of_closed db e He). by rewrite IH.
Qed.

Lemma priority_totals_defined (rows : list Joined.t) (acc : gmap Priority Z) :
  Forall (λ entry, is_Some (Joined.tasks entry)) rows →
  is_Some (foldl (λ acc entry,
                    acc ← acc;
                    task ← Joined.tasks entry;
                    Some (accumulate (Task.priority task) (duration entry) acc))
                 (Some acc) rows).
Proof.
  intros Hrows. revert acc.
  induction Hrows as [|entry rows [task Htask] _ IH]; intros acc; simpl.
  - by eexists.
  - rewrite Htask. simpl. apply IH.
Qed.

Lemma embedded_task_found (db : Store) (e : TimeEntry.t) :
  entries_of_owner db → e ∈ time_entries db →
  is_Some (Joined.tasks (embed_task db e)).
Proof.
  intros Hfk He. destruct (Hfk e He) as (t & Ht & Hid & _). simpl.
  assert (t ∈ filter (λ t, Task.id t = TimeEntry.task_id e) (tasks db)) as Hin
    by (by apply list_elem_of_filter).
  destruct (filter _ (tasks db)); [by apply elem_of_nil in Hin|by eexists].
Qed.

Lemma unique_tasks_size (ids : list nat) :
  size (list_to_set ids : gset nat) = length (remove_dups ids).
Proof.
  rewrite <- (size_list_to_set (C := gset nat) (remove_dups ids))
    by apply NoDup_remove_dups.
  f_equal. apply set_eq. intros x.
  by rewrite !elem_of_list_to_set, elem_of_remove_dups.
Qed.

Lemma closed_only (userId : nat) (start_date end_date : option Z)
  (entries : list TimeEntry.t) :
  filter (closed_in_window userId start_date end_date) (filter is_closed entries)
  = filter (closed_in_window userId start_date end_date) entries.
Proof.
  rewrite list_filter_filter. apply list_filter_iff.
  intros e. unfold closed_in_window. tauto.
Qed.

(** C8: on a store whose entries reference existing tasks, the time
    statistics are computed from the caller's closed entries in the
    window and from no open entry; [total_time_ms] is the sum of their
    durations [end_time − start_time], one term per entry, and
    [average_time_per_task_ms] is that total divided by the number of
    distinct task ids among them, 0 when there is none. *)
Theorem time_statistics_totals (userId : nat) (start_date end_date : option Z)
  (db : Store) :
  entries_of_owner db →
  let used := filter (closed_in_window userId start_date end_date) (time_entries db) in
  ∃ statistics,
    getTimeStatistics userId start_date end_date db = json statistics
    ∧ Forall is_closed used
    ∧ getTimeStatistics userId start_date end_date
        (mkStore (tasks db) (filter is_closed (time_entries db)))
      = json statistics
    ∧ length (omap closed_duration used) = length used
    ∧ total_time_ms statistics = sum_of (omap closed_duration used)
    ∧ average_time_per_task_ms statistics =
        (if decide (distinct_tasks used = 0%nat) then Finite 0
         else Finite (inject_Z (sum_of (omap closed_duration used))
                      / inject_Z (Z.of_nat (distinct_tasks used)))%Q).
Proof.
  intros Hfk used.
  assert (Forall is_closed used) as Hclosed.
  { apply Forall_forall. intros e [(_ & Hc & _) _]%list_elem_of_filter. done. }
  assert (getTimeStatistics userId start_date end_date
            (mkStore (tasks db) (filter is_closed (time_entries db)))
          = getTimeStatistics userId start_date end_date db) as Hsame.
  { unfold getTimeStatistics, select_closed. simpl. by rewrite closed_only. }
  rewrite Hsame. unfold getTimeStatistics, select_closed. fold used.
  unfold timeStatistics.
  destruct (priority_totals_defined (embed_task db <$> used) ∅) as [byPriority ->].
  { apply Forall_fmap, Forall_forall. intros e [_ He]%list_elem_of_filter.
    by apply embedded_task_found. }
  simpl. eexists. split; [done|]. split; [done|]. split; [done|].
  rewrite (durations_of_closed db used Hclosed). split; [by rewrite !length_fmap|].
  simpl. split; [by rewrite total_is_sum|].
  rewrite total_is_sum, Z.add_0_l.
  rewrite <- list_fmap_compose.
  replace (Joined.task_id ∘ embed_task db) with TimeEntry.task_id by done.
  rewrite unique_tasks_size. fold (distinct_tasks used).
  destruct (decide (distinct_tasks used = 0%nat)) as [Hz|Hnz].
  - rewrite decide_False by lia. done.
  - rewrite decide_True by lia. unfold js_div. rewrite decide_False by lia. done.
Qed.

Lemma time_statistics_totals_witness :
  entries_of_owner history_db
  ∧ ∃ statistics,
      getTimeStatistics 1 None None history_db = json statistics
      ∧ total_time_ms statistics = 7200000
      ∧ average_time_per_task_ms statistics = Finite (7200000 / 1)%Q.
Proof.
  assert (entries_of_owner history_db) as Hfk.
  { intros e He. exists sample_task. split; [left|].
    simpl in He. rewrite !elem_of_cons in He.
    destruct He as [->|[->|[->|He]]]; [done|done|done|by apply elem_of_nil in He]. }
  split; [exact Hfk|].
  destruct (time_statistics_totals 1 None None history_db Hfk)
    as (statistics & Hget & _ & _ & _ & Htotal & Haverage).
  exists statistics. split; [exact Hget|]. split; [exact Htotal|exact Haverage].
Defined.

(** ** The time report *)

Lemma sum_of_Permutation (l1 l2 : list Z) : l1 ≡ₚ l2 → sum_of l1 = sum_of l2.
Proof.
  unfold sum_of. induction 1 as [|x l1 l2 _ IH|x y l|l1 l2 l3 _ IH1 _ IH2]; simpl.
  - done.
  - by rewrite IH.
  - lia.
  - by rewrite IH1.
Qed.

Lemma sum_of_app (l1 l2 : list Z) : sum_of (l1 ++ l2) = sum_of l1 + sum_of l2.
Proof. unfold sum_of. induction l1 as [|x l1 IH]; simpl; [done|]. rewrite IH. lia. Qed.

Lemma report_total_is_sum (userId : nat) (start_date end_date : option Z) (db : Store) :
  foldl (λ total entry, total + duration entry) 0
        (select_report userId start_date end_date db)
  = sum_of (omap closed_duration
              (filter (closed_in_window userId start_date end_date) (time_entries db))).
Proof.
  rewrite total_is_sum, Z.add_0_l. unfold select_report, order_start_time_desc.
  set (used := filter _ (time_entries db)).
  assert (Forall is_closed (merge_sort newer_first used)) as Hclosed.
  { rewrite merge_sort_Permutation. apply Forall_forall.
    intros e [(_ & Hc & _) _]%list_elem_of_filter. done. }
  rewrite <- (durations_of_closed db _ Hclosed).
  apply sum_of_Permutation. by rewrite merge_sort_Permutation.
Qed.

Lemma statistics_total (rows : list Joined.t) (statistics : TimeStatistics) :
  timeStatistics rows = Some statistics →
  total_time_ms statistics = sum_of (duration <$> rows).
Proof.
  unfold timeStatistics.
  destruct (foldl _ (Some ∅) rows) as [byPriority|]; [|discriminate].
  simpl. intros [= <-]. simpl. by rewrite total_is_sum.
Qed.

(** X1: the report is always served; it lists the caller's closed entries
    of the window, each once and newest first, and its total is the sum
    of their durations, one term per listed entry. *)
Theorem time_report_contents (userId : nat) (start_date end_date : option Z)
  (db : Store) :
  let used := filter (closed_in_window userId start_date end_date) (time_entries db) in
  ∃ report,
    getTimeReport userId start_date end_date db = json report
    ∧ StronglySorted newer_first (Joined.row <$> Report.time_entries report)
    ∧ Joined.row <$> Report.time_entries report ≡ₚ used
    ∧ Forall (λ e, TimeEntry.user_id e = userId ∧ is_closed e) used
    ∧ length (omap closed_duration used) = length used
    ∧ Report.total_time_ms report = sum_of (omap closed_duration used).
Proof.
  intros used. eexists. split; [reflexivity|]. simpl.
  assert (Joined.row <$> select_report userId start_date end_date db
          = order_start_time_desc used) as ->.
  { unfold select_report. rewrite <- list_fmap_compose.
    etrans; [apply (list_fmap_ext _ id); done|apply list_fmap_id]. }
  assert (Forall is_closed used) as Hclosed.
  { apply Forall_forall. intros e [(_ & Hc & _) _]%list_elem_of_filter. done. }
  split; [apply StronglySorted_merge_sort; apply _|].
  split; [apply merge_sort_Permutation|].
  split; [apply Forall_forall; intros e [(Hu & Hc & _) _]%list_elem_of_filter; done|].
  split; [by rewrite (durations_of_closed db used Hclosed), !length_fmap|].
  apply report_total_is_sum.
Qed.

(** X2: whenever the time statistics are served, their total is the total
    of the report for the same user and window. *)
Theorem report_total_matches_statistics (userId : nat)
  (start_date end_date : option Z) (db : Store) (statistics : TimeStatistics) :
  getTimeStatistics userId start_date end_date db = json statistics →
  Report.total_time_ms <$> body_of (getTimeReport userId start_date end_date db)
  = Some (total_time_ms statistics).
Proof.
  unfold getTimeStatistics.
  destruct (timeStatistics (select_closed userId start_date end_date db))
    as [s|] eqn:Hs; [|discriminate].
  intros [= <-]. apply statistics_total in Hs. rewrite Hs. simpl. f_equal.
  etrans; [apply report_total_is_sum|].
  unfold select_closed.
  rewrite <- durations_of_closed; [done|].
  apply Forall_forall. intros e [(_ & Hc & _) _]%list_elem_of_filter. done.
Qed.

Lemma report_total_matches_statistics_witness :
  Report.total_time_ms <$> body_of (getTimeReport 1 None None history_db)
  = Some 7200000.
Proof.
  assert (∃ statistics, getTimeStatistics 1 None None history_db = json statistics
                        ∧ total_time_ms statistics = 7200000)
    as (statistics & Hget & <-) by (eexists; split; reflexivity).
  exact (report_total_matches_statistics 1 None None history_db statistics Hget).
Defined.

Lemma report_total_app (userId : nat) (db : Store) (rows : list TimeEntry.t) :
  reported_total userId (mkStore (tasks db) (time_entries db ++ rows))
  = Some (sum_of (omap closed_duration
                    (filter (closed_in_window userId None None) (time_entries db)))
          + sum_of (omap closed_duration
                      (filter (closed_in_window userId None None) rows))).
Proof.
  unfold reported_total. simpl. f_equal.
  etrans; [apply report_total_is_sum|]. simpl.
  by rewrite filter_app, omap_app, sum_of_app.
Qed.

(** X3: on a task of the caller with no open entry, starting the timer
    leaves the total of the report as it was, and stopping it afterwards
    raises the total by exactly the time between the two calls. *)
Theorem round_trip_adds_to_report (task_id userId : nat) (t1 t2 : Z) (db : Store) :
  NoDup (Task.id <$> tasks db) →
  owns db userId task_id →
  open_entries task_id db = [] →
  ∃ total,
    reported_total userId db = Some total
    ∧ reported_total userId (startTimeTracking task_id userId t1 db).2 = Some total
    ∧ reported_total userId
        (stopTimeTracking task_id userId t2
           (startTimeTracking task_id userId t1 db).2).2
      = Some (total + (t2 - t1)).
Proof.
  intros Hpk Hown Hidle.
  pose proof (no_active_of_no_open task_id userId db Hidle) as Hnone.
  rewrite (start_inserts task_id userId t1 db);
    [|by apply task_lookup_owns|by rewrite Hnone].
  cbn [snd]. rewrite (stop_fresh_row task_id userId t1 t2 db Hnone). cbn [snd].
  rewrite !report_total_app.
  eexists. split; [|split].
  - pose proof (report_total_app userId db []) as Hnow.
    rewrite app_nil_r in Hnow. destruct db. exact Hnow.
  - rewrite filter_cons_False; [done|]. intros (_ & Hclosed & _). by apply Hclosed.
  - rewrite filter_cons_True.
    + simpl. f_equal. lia.
    + repeat split; done.
Qed.

Lemma round_trip_adds_to_report_witness :
  ∃ total,
    reported_total 1 idle_db = Some total
    ∧ reported_total 1 (startTimeTracking 7 1 100 idle_db).2 = Some total
    ∧ reported_total 1
        (stopTimeTracking 7 1 250 (startTimeTracking 7 1 100 idle_db).2).2
      = Some (total + (250 - 100)).
Proof.
  apply (round_trip_adds_to_report 7 1 100 250 idle_db).
  - simpl. apply NoDup_singleton.
  - exists sample_task. repeat split. left.
  - reflexivity.
Defined.

(** ** Reading tasks *)

#[global] Instance created_first_transitive : Transitive created_first.
Proof. unfold created_first. intros a b c. lia. Qed.

#[global] Instance created_first_total : Total created_first.
Proof. unfold created_first. intros a b. lia. Qed.

(** X4: the task list is always served; it holds the caller's tasks, each
    once and none of another user, latest created first. *)
Theorem getTasks_lists_own_tasks (userId : nat) (db : Store) :
  ∃ listed,
    getTasks userId db = reply 200 listed
    ∧ StronglySorted created_first listed
    ∧ listed ≡ₚ filter (λ t, Task.user_id t = userId) (tasks db)
    ∧ ∀ t, t ∈ listed ↔ t ∈ tasks db ∧ Task.user_id t = userId.
Proof.
  eexists. split; [reflexivity|].
  split; [apply StronglySorted_merge_sort; apply _|].
  split; [apply merge_sort_Permutation|].
  intros t. rewrite merge_sort_Permutation, list_elem_of_filter. tauto.
Qed.

Lemma getTask_of_foreign_task (id userId : nat) (db : Store) :
  ¬ owns db userId id → getTask id userId db = failure 500.
Proof.
  intros Hnot. unfold getTask, single_result.
  destruct (single (select_task id userId db)) as [task|] eqn:Hone; [|done].
  apply single_Some in Hone.
  assert (task ∈ select_task id userId db) as Hin by (rewrite Hone; left).
  apply list_elem_of_filter in Hin as [[Hid Huser] Hin].
  destruct Hnot. by exists task.
Qed.

(** X5: a task that does not exist or belongs to another user is answered
    500, never 404: [.single()] reports the empty result as an error and
    the handler checks the error first.  On a table with its primary key
    the caller's task is answered 200. *)
Theorem getTask_answers_200_or_500 (id userId : nat) (db : Store) :
  ((∃ task, getTask id userId db = reply 200 task
            ∧ task ∈ tasks db ∧ Task.id task = id ∧ Task.user_id task = userId)
   ∨ getTask id userId db = failure 500)
  ∧ (¬ owns db userId id → getTask id userId db = failure 500)
  ∧ (NoDup (Task.id <$> tasks db) → owns db userId id →
     ∃ task, getTask id userId db = reply 200 task).
Proof.
  unfold getTask, single_result.
  destruct (single (select_task id userId db)) as [task|] eqn:Hone; simpl.
  - apply single_Some in Hone.
    assert (task ∈ select_task id userId db) as Hin by (rewrite Hone; left).
    apply list_elem_of_filter in Hin as [[Hid Huser] Hin].
    split; [left; by exists task|]. split; [|by eexists].
    intros Hnot. destruct Hnot. by exists task.
  - split; [by right|]. split; [done|]. intros Hpk Hown.
    apply (task_lookup_owns db id userId Hpk) in Hown as [task Htask]. congruence.
Qed.

Lemma getTask_answers_200_or_500_witness :
  (¬ owns idle_db 2 7 → getTask 7 2 idle_db = failure 500)
  ∧ ∃ task, getTask 7 1 idle_db = reply 200 task.
Proof.
  destruct (getTask_answers_200_or_500 7 2 idle_db) as (_ & Hforeign & _).
  destruct (getTask_answers_200_or_500 7 1 idle_db) as (_ & _ & Hown).
  split; [exact Hforeign|]. apply Hown.
  - simpl. apply NoDup_singleton.
  - exists sample_task. repeat split. left.
Defined.

(** ** The active timer of the time tracking page *)

Lemma listing_of_own_task (db : Store) (userId : nat) (t : Task.t) :
  NoDup (Task.id <$> tasks db) →
  t ∈ tasks db → Task.user_id t = userId →
  getTimeEntries (Task.id t) userId db
  = json (order_start_time_desc (select_entries (Task.id t) userId db)).
Proof.
  intros Hpk Hin Huser. unfold getTimeEntries.
  destruct (task_lookup_owns db (Task.id t) userId Hpk) as [_ Hfound].
  destruct Hfound as [task ->]; [by exists t|done].
Qed.

Lemma open_in_listing (db : Store) (task_id userId : nat) (e : TimeEntry.t) :
  (e ∈ order_start_time_desc (select_entries task_id userId db)
   ∧ TimeEntry.end_time e = None)
  ↔ active_entry db task_id userId e.
Proof.
  unfold order_start_time_desc, select_entries, active_entry, is_open.
  rewrite merge_sort_Permutation, list_elem_of_filter. tauto.
Qed.

Lemma findActiveTimeEntry_spec (listed : list Task.t) (userId : nat) (db : Store) :
  NoDup (Task.id <$> tasks db) →
  Forall (λ t, t ∈ tasks db ∧ Task.user_id t = userId) listed →
  ∃ found,
    findActiveTimeEntry listed userId db = Some found
    ∧ (found = None ↔ ∀ t e, t ∈ listed → ¬ active_entry db (Task.id t) userId e)
    ∧ (∀ e, found = Some e → ∃ t, t ∈ listed ∧ active_entry db (Task.id t) userId e).
Proof.
  intros Hpk. induction 1 as [|t listed [Hin Huser] _ IH]; simpl.
  { exists None. split; [done|]. split; [|done].
    split; [|done]. intros _ t e Ht. by apply elem_of_nil in Ht. }
  rewrite (listing_of_own_task db userId t Hpk Hin Huser).
  destruct (list_find _ (order_start_time_desc _)) as [[i active]|] eqn:Hfind.
  - apply list_find_Some in Hfind as (Hat & Hopen & _).
    assert (active_entry db (Task.id t) userId active) as Hactive.
    { apply open_in_listing. split; [by eapply list_elem_of_lookup_2|done]. }
    exists (Some active). split; [done|]. split.
    + split; [done|]. intros Hnone. destruct (Hnone t active); [left|done].
    + intros e [= <-]. exists t. split; [left|done].
  - apply list_find_None in Hfind. rewrite Forall_forall in Hfind.
    destruct IH as (found & -> & Hnone & Hsome). exists found. split; [done|]. split.
    + rewrite Hnone. split.
      * intros Hrest t' e [->|Ht']%elem_of_cons; [|by apply Hrest].
        intros [He Hopen]%open_in_listing. by apply (Hfind e).
      * intros Hall t' e Ht'. apply Hall. by right.
    + intros e He. destruct (Hsome e He) as (t' & Ht' & Hactive).
      exists t'. split; [by right|done].
Qed.

(** X6: on a tasks table with its primary key the page's [fetchTasks]
    succeeds, and the active task it records is null exactly when the
    caller has no running timer on any of his tasks; otherwise it is a
    task of the caller with a running timer. *)
Theorem active_task_iff_running_timer (userId : nat) (db : Store) :
  NoDup (Task.id <$> tasks db) →
  ∃ listed activeTaskId,
    fetchTasks userId db = Some (listed, activeTaskId)
    ∧ (activeTaskId = None
       ↔ ∀ task_id e, owns db userId task_id → ¬ active_entry db task_id userId e)
    ∧ (∀ task_id, activeTaskId = Some task_id →
         owns db userId task_id ∧ ∃ e, active_entry db task_id userId e).
Proof.
  intros Hpk. unfold fetchTasks, getTasks.
  set (listed := merge_sort created_first _).
  assert (∀ t, t ∈ listed ↔ t ∈ tasks db ∧ Task.user_id t = userId) as Hlisted.
  { intros t. unfold listed. rewrite merge_sort_Permutation, list_elem_of_filter. tauto. }
  destruct (findActiveTimeEntry_spec listed userId db Hpk)
    as (found & -> & Hnone & Hsome).
  { apply Forall_forall. intros t Ht. by apply Hlisted. }
  exists listed, (TimeEntry.task_id <$> found). split; [done|]. split.
  - rewrite fmap_None, Hnone. split.
    + intros Hall task_id e (t & Hin & <- & Huser). apply Hall. by apply Hlisted.
    + intros Hall t e [Hin Huser]%Hlisted. apply Hall. by exists t.
  - intros task_id [e [-> ->]]%fmap_Some.
    destruct (Hsome e eq_refl) as (t & [Hin Huser]%Hlisted & Hactive).
    pose proof Hactive as (_ & -> & _). split; [by exists t|by exists e].
Qed.

Lemma active_task_iff_running_timer_witness :
  ∃ listed activeTaskId,
    fetchTasks 1 running_db = Some (listed, activeTaskId)
    ∧ (activeTaskId = None
       ↔ ∀ task_id e, owns running_db 1 task_id → ¬ active_entry running_db task_id 1 e)
    ∧ (∀ task_id, activeTaskId = Some task_id →
         owns running_db 1 task_id ∧ ∃ e, active_entry running_db task_id 1 e).
Proof.
  apply (active_task_iff_running_timer 1 running_db). simpl. apply NoDup_singleton.
Defined.

(** ** Writing tasks *)

Lemma new_task_id_fresh (rows : list Task.t) (t : Task.t) :
  t ∈ rows → (Task.id t < new_task_id rows)%nat.
Proof.
  intros Ht. unfold new_task_id.
  assert (Task.id t ≤ max_list (Task.id <$> rows))%nat; [|lia].
  apply max_list_elem_of_le. by apply list_elem_of_fmap_2.
Qed.

Lemma new_task_id_not_used (rows : list Task.t) :
  new_task_id rows ∉ Task.id <$> rows.
Proof. intros (t & Heq & Ht%new_task_id_fresh)%list_elem_of_fmap. lia. Qed.

Lemma getTask_of_listed (id userId : nat) (db : Store) (task : Task.t) :
  NoDup (Task.id <$> tasks db) →
  task ∈ tasks db → Task.id task = id → Task.user_id task = userId →
  getTask id userId db = reply 200 task.
Proof.
  intros Hpk Hin Hid Huser. unfold getTask, single_result.
  destruct (task_lookup_owns db id userId Hpk) as [_ Hfound].
  destruct Hfound as [found Hfound]; [by exists task|].
  rewrite Hfound. simpl. f_equal.
  apply single_Some in Hfound.
  assert (found ∈ select_task id userId db) as Hf by (rewrite Hfound; left).
  apply list_elem_of_filter in Hf as [[Hfid _] Hfin].
  apply (key_injective Task.id (tasks db)); congruence.
Qed.

(** X7: creating a task always succeeds with 201; the new task is pending,
    belongs to the caller and has an id no task had; the table keeps its
    primary key; the caller reads the task back with [getTask], every
    other user is answered 500 for it, and no time entry is touched. *)
Theorem created_task_is_read_back (io : option (gmap nat (gset nat))) (userId : nat)
  (priority : Priority) (now : Z) (db : Store) :
  NoDup (Task.id <$> tasks db) →
  ∃ task db',
    createTask io userId priority now db = (reply 201 task, db', emitTaskCreated io task)
    ∧ Task.status task = pending
    ∧ Task.user_id task = userId
    ∧ Task.priority task = priority
    ∧ (Task.id task ∉ Task.id <$> tasks db)
    ∧ tasks db' = tasks db ++ [task]
    ∧ time_entries db' = time_entries db
    ∧ NoDup (Task.id <$> tasks db')
    ∧ getTask (Task.id task) userId db' = reply 200 task
    ∧ ∀ other, other ≠ userId → getTask (Task.id task) other db' = failure 500.
Proof.
  intros Hpk. eexists _, _. split; [reflexivity|]. simpl.
  assert (NoDup (Task.id <$> (tasks db
                 ++ [Task.mk (new_task_id (tasks db)) userId pending priority now now])))
    as Hpk'.
  { rewrite fmap_app. apply NoDup_app. split; [done|]. split; [|apply NoDup_singleton].
    intros i Hi [->|[]%elem_of_nil]%elem_of_cons. by apply new_task_id_not_used in Hi. }
  repeat split; try done.
  - apply new_task_id_not_used.
  - apply getTask_of_listed; try done. simpl. apply elem_of_app. right. left.
  - intros other Hother.
    apply (getTask_of_foreign_task (new_task_id (tasks db)) other).
    intros (t & Hin & Hid & Huser). simpl in Hin.
    apply elem_of_app in Hin as [Hin|Hin].
    + apply new_task_id_fresh in Hin. lia.
    + apply list_elem_of_singleton in Hin as ->. simpl in Huser. congruence.
Qed.

Lemma created_task_is_read_back_witness :
  ∃ task db',
    createTask None 1 low 500 idle_db = (reply 201 task, db', emitTaskCreated None task)
    ∧ Task.status task = pending
    ∧ Task.user_id task = 1%nat
    ∧ Task.priority task = low
    ∧ (Task.id task ∉ Task.id <$> tasks idle_db)
    ∧ tasks db' = tasks idle_db ++ [task]
    ∧ time_entries db' = time_entries idle_db
    ∧ NoDup (Task.id <$> tasks db')
    ∧ getTask (Task.id task) 1 db' = reply 200 task
    ∧ ∀ other, other ≠ 1%nat → getTask (Task.id task) other db' = failure 500.
Proof.
  apply (created_task_is_read_back None 1 low 500 idle_db).
  simpl. apply NoDup_singleton.
Defined.

Lemma update_task_miss (id userId : nat) (columns : Task.t → Task.t) (db : Store) :
  ¬ owns db userId id → update_task id userId columns db = ([], db).
Proof.
  intros Hnot. unfold update_task, select_task.
  rewrite filter_none.
  - simpl. f_equal. destruct db as [ts es]. simpl. f_equal.
    rewrite <- (list_fmap_id ts) at 2. apply list_fmap_ext.
    intros _ t Ht%list_elem_of_lookup_2. simpl in *.
    rewrite decide_False; [done|]. intros [Hid Huser]. destruct Hnot. by exists t.
  - intros t Ht [Hid Huser]. destruct Hnot. by exists t.
Qed.

Lemma update_task_hit (id userId : nat) (columns : Task.t → Task.t) (db : Store)
  (task : Task.t) :
  NoDup (Task.id <$> tasks db) →
  task ∈ tasks db → Task.id task = id → Task.user_id task = userId →
  update_task id userId columns db
  = ([columns task],
     mkStore ((λ t, if decide (t = task) then columns task else t) <$> tasks db)
             (time_entries db)).
Proof.
  intros Hpk Hin Hid Huser. unfold update_task.
  destruct (task_lookup_owns db id userId Hpk) as [_ Hfound].
  destruct Hfound as [found Hfound]; [by exists task|].
  apply single_Some in Hfound. rewrite Hfound.
  assert (found ∈ select_task id userId db) as Hf by (rewrite Hfound; left).
  apply list_elem_of_filter in Hf as [[Hfid _] Hfin].
  assert (found = task) as -> by (apply (key_injective Task.id (tasks db)); congruence).
  simpl. f_equal. f_equal. apply list_fmap_ext.
  intros _ t Ht%list_elem_of_lookup_2.
  destruct (decide (Task.id t = id ∧ Task.user_id t = userId)) as [[Htid _]|Hno].
  - assert (t = task) as -> by (apply (key_injective Task.id (tasks db)); congruence).
    by rewrite decide_True.
  - rewrite decide_False; [done|]. intros ->. by destruct Hno.
Qed.

Lemma status_of_string_values (value : string) :
  status_of_string value = None
  ↔ value ≠ "pending" ∧ value ≠ "in_progress" ∧ value ≠ "completed".
Proof.
  unfold status_of_string. repeat case_decide; split; try done; intros (? & ? & ?); done.
Qed.

(** X8: [updateTaskStatus] on a tasks table with its primary key.
    A status outside the three values is answered 400 and nothing is
    written or emitted.  A task of the caller gets the new status and
    nothing else changes: its other columns, the other tasks and the
    time entries stay, and the updated task is announced to the caller's
    room.  A task that is not the caller's is answered 500 (never 404)
    with nothing written or emitted. *)
Theorem updateTaskStatus_outcomes (io : option (gmap nat (gset nat)))
  (id userId : nat) (value : string) (db : Store) :
  NoDup (Task.id <$> tasks db) →
  (status_of_string value = None →
     updateTaskStatus io id userId value db = (failure 400, db, []))
  ∧ (∀ newStatus, status_of_string value = Some newStatus →
       ¬ owns db userId id →
       updateTaskStatus io id userId value db = (failure 500, db, []))
  ∧ (∀ newStatus task, status_of_string value = Some newStatus →
       task ∈ tasks db → Task.id task = id → Task.user_id task = userId →
       updateTaskStatus io id userId value db
       = (reply 200 (set_status newStatus task),
          mkStore ((λ t, if decide (t = task) then set_status newStatus task else t)
                     <$> tasks db)
                  (time_entries db),
          emitTaskUpdated io (set_status newStatus task))).
Proof.
  intros Hpk. unfold updateTaskStatus. split; [by intros ->|]. split.
  - intros newStatus -> Hnot. by rewrite update_task_miss.
  - intros newStatus task -> Hin Hid Huser.
    by rewrite (update_task_hit id userId _ db task Hpk Hin Hid Huser).
Qed.

Lemma updateTaskStatus_outcomes_witness :
  updateTaskStatus None 7 1 "done" idle_db = (failure 400, idle_db, [])
  ∧ updateTaskStatus None 7 2 "completed" idle_db = (failure 500, idle_db, [])
  ∧ updateTaskStatus None 7 1 "completed" idle_db
    = (reply 200 (set_status completed sample_task),
       mkStore [set_status completed sample_task] [],
       []).
Proof.
  assert (NoDup (Task.id <$> tasks idle_db)) as Hpk by (simpl; apply NoDup_singleton).
  destruct (updateTaskStatus_outcomes None 7 1 "done" idle_db Hpk) as (H400 & _ & _).
  destruct (updateTaskStatus_outcomes None 7 2 "completed" idle_db Hpk) as (_ & H500 & _).
  destruct (updateTaskStatus_outcomes None 7 1 "completed" idle_db Hpk) as (_ & _ & H200).
  split; [by apply H400|]. split.
  - apply (H500 completed); [done|].
    intros (t & Hin & _ & Huser). simpl in Hin.
    apply list_elem_of_singleton in Hin as ->. discriminate Huser.
  - apply (H200 completed sample_task); try done. left.
Defined.

(** ** Task statistics after a change of status *)

Lemma count_replaced_same {A} `{EqDecision A} (P : A → Prop) `{∀ x, Decision (P x)}
  (old new : A) (l : list A) :
  (P old ↔ P new) →
  length (filter P ((λ x, if decide (x = old) then new else x) <$> l))
  = length (filter P l).
Proof.
  intros Hsame. induction l as [|a l IH]; [done|].
  rewrite fmap_cons, !filter_cons.
  destruct (decide (a = old)) as [->|Hne].
  - destruct (decide (P new)), (decide (P old)); simpl; try tauto; by rewrite IH.
  - destruct (decide (P a)); simpl; by rewrite IH.
Qed.

Lemma count_replaced_more {A} `{EqDecision A} (P : A → Prop) `{∀ x, Decision (P x)}
  (old new : A) (l : list A) :
  NoDup l → old ∈ l → ¬ P old → P new →
  length (filter P ((λ x, if decide (x = old) then new else x) <$> l))
  = S (length (filter P l)).
Proof.
  intros Hnd Hin Hold Hnew. induction Hnd as [|a l Hnotin Hnd IH]; [by apply elem_of_nil in Hin|].
  rewrite fmap_cons, !filter_cons.
  destruct (decide (a = old)) as [->|Hne].
  - rewrite decide_True, decide_False by done. simpl. f_equal.
    assert ((λ x, if decide (x = old) then new else x) <$> l = l) as ->; [|done].
    etrans; [apply (list_fmap_ext _ id)|apply list_fmap_id].
    intros _ x Hx%list_elem_of_lookup_2. rewrite decide_False; [done|]. by intros ->.
  - apply elem_of_cons in Hin as [->|Hin]; [done|].
    destruct (decide (P a)); simpl; by rewrite IH.
Qed.

Lemma filter_fmap_commute {A} (P : A → Prop) `{∀ x, Decision (P x)} (g : A → A)
  (l : list A) :
  (∀ x, P (g x) ↔ P x) → filter P (g <$> l) = g <$> filter P l.
Proof.
  intros Hg. induction l as [|a l IH]; [done|].
  rewrite fmap_cons, !filter_cons.
  destruct (decide (P (g a))) as [Hy|Hn], (decide (P a)) as [Hy'|Hn'].
  - by rewrite fmap_cons, IH.
  - destruct Hn'. by apply Hg.
  - destruct Hn. by apply Hg.
  - by rewrite IH.
Qed.

Lemma select_tasks_replaced (userId : nat) (start_date end_date : option Z)
  (db : Store) (old new : Task.t) :
  Task.user_id new = Task.user_id old →
  Task.created_at new = Task.created_at old →
  select_tasks userId start_date end_date
    (mkStore ((λ t, if decide (t = old) then new else t) <$> tasks db) (time_entries db))
  = (λ t, if decide (t = old) then new else t)
      <$> select_tasks userId start_date end_date db.
Proof.
  intros Huser Hcreated. unfold select_tasks. simpl.
  apply filter_fmap_commute. intros t.
  destruct (decide (t = old)) as [->|]; [|done]. by rewrite Huser, Hcreated.
Qed.

(** X9: marking a task of the caller that is in the window and not yet
    completed as completed raises [completed_tasks] of the task
    statistics by one and leaves [total_tasks] and the counts by priority
    as they were. *)
Theorem completing_a_task_counts_once (io : option (gmap nat (gset nat)))
  (userId : nat) (start_date end_date : option Z) (db : Store) (task : Task.t) :
  NoDup (Task.id <$> tasks db) →
  task ∈ select_tasks userId start_date end_date db →
  Task.status task ≠ completed →
  ∃ db' before after,
    (updateTaskStatus io (Task.id task) userId "completed" db).1.2 = db'
    ∧ getTaskStatistics userId start_date end_date db = json before
    ∧ getTaskStatistics userId start_date end_date db' = json after
    ∧ total_tasks after = total_tasks before
    ∧ completed_tasks after = S (completed_tasks before)
    ∧ tasks_by_priority after = tasks_by_priority before.
Proof.
  intros Hpk Hin Hstatus.
  pose proof Hin as [(Huser & _) Hdb]%list_elem_of_filter.
  unfold updateTaskStatus.
  replace (status_of_string "completed") with (Some completed) by reflexivity.
  rewrite (update_task_hit (Task.id task) userId _ db task Hpk Hdb eq_refl Huser).
  simpl. eexists _, _, _. split; [reflexivity|]. split; [reflexivity|].
  unfold getTaskStatistics. rewrite select_tasks_replaced by done.
  split; [reflexivity|]. simpl.
  assert (NoDup (select_tasks userId start_date end_date db)) as Hnd.
  { apply NoDup_filter. by eapply NoDup_of_keys. }
  split; [by rewrite length_fmap|]. split.
  - unfold count. by apply count_replaced_more.
  - unfold count. f_equal; by apply count_replaced_same.
Qed.

Lemma completing_a_task_counts_once_witness :
  ∃ db' before after,
    (updateTaskStatus None 7 1 "completed" idle_db).1.2 = db'
    ∧ getTaskStatistics 1 None None idle_db = json before
    ∧ getTaskStatistics 1 None None db' = json after
    ∧ total_tasks after = total_tasks before
    ∧ completed_tasks after = S (completed_tasks before)
    ∧ tasks_by_priority after = tasks_by_priority before.
Proof.
  apply (completing_a_task_counts_once None 1 None None idle_db sample_task).
  - simpl. apply NoDup_singleton.
  - apply list_elem_of_filter. repeat split. left.
  - discriminate.
Defined.

(** ** Deleting a task *)

Lemma filter_all {A} (P : A → Prop) `{∀ x, Decision (P x)} (l : list A) :
  (∀ x, x ∈ l → P x) → filter P l = l.
Proof.
  induction l as [|a l IH]; intros Hall; [done|].
  rewrite filter_cons_True by (apply Hall; left).
  f_equal. apply IH. intros x Hx. apply Hall. by right.
Qed.

Lemma delete_task_miss (id userId : nat) (db : Store) :
  ¬ owns db userId id → delete_task id userId db = db.
Proof.
  intros Hnot. unfold delete_task. destruct db as [ts es]. simpl. f_equal.
  apply filter_all. intros t Ht [Hid Huser]. apply Hnot. by exists t.
Qed.


(** ** Rooms and emissions *)

Lemma server_after_snoc (events : list SocketEvent) (ev : SocketEvent) :
  server_after (events ++ [ev]) = on_socket_event (server_after events) ev.
Proof. unfold server_after. by rewrite foldl_app. Qed.

(** Every connected socket has connected, and has asked for each room it
    is in. *)
Lemma rooms_were_joined (events : list SocketEvent) (socket : nat) (joined : gset nat) :
  server_after events !! socket = Some joined →
  connection socket ∈ events
  ∧ ∀ userId, userId ∈ joined → join socket userId ∈ events.
Proof.
  revert joined. induction events as [|ev events IH] using rev_ind; intros joined.
  { unfold server_after. simpl. by rewrite lookup_empty. }
  rewrite server_after_snoc. setoid_rewrite elem_of_app.
  setoid_rewrite list_elem_of_singleton.
  destruct ev as [s|s u|s]; simpl.
  - destruct (decide (s = socket)) as [->|Hne].
    + rewrite lookup_insert_eq. intros [= <-]. split; [by right|].
      intros userId Hin. by apply not_elem_of_empty in Hin.
    + rewrite lookup_insert_ne by done. intros [Hc Hj]%IH. split; [by left|].
      intros userId Hin. left. by apply Hj.
  - destruct (decide (s = socket)) as [->|Hne].
    + rewrite lookup_alter_eq.
      destruct (server_after events !! socket) as [before|] eqn:Hbefore; [|done].
      simpl. intros [= <-]. destruct (IH before eq_refl) as [Hc Hj].
      split; [by left|].
      intros userId [Hin|Heq%elem_of_singleton]%elem_of_union; [|subst; by right].
      left. by apply Hj.
    + rewrite lookup_alter_ne by done. intros [Hc Hj]%IH. split; [by left|].
      intros userId Hin. left. by apply Hj.
  - destruct (decide (s = socket)) as [->|Hne].
    + by rewrite lookup_delete_eq.
    + rewrite lookup_delete_ne by done. intros [Hc Hj]%IH. split; [by left|].
      intros userId Hin. left. by apply Hj.
Qed.

Lemma room_recipients (rooms : gmap nat (gset nat)) (socket userId : nat) :
  socket ∈ recipients rooms (to_room userId)
  ↔ ∃ joined, rooms !! socket = Some joined ∧ userId ∈ joined.
Proof.
  simpl. rewrite elem_of_dom. unfold is_Some.
  setoid_rewrite map_lookup_filter_Some. simpl. split.
  - intros (joined & Hat & Hin). by exists joined.
  - intros (joined & Hat & Hin). by exists joined.
Qed.

(** X11: a socket is reached by what is emitted to a user's room only if
    it has connected and sent [join] with that user's id; and [join] is
    granted to every connected socket for whatever id it sends. *)
Theorem room_members_have_joined :
  (∀ events socket userId,
     socket ∈ recipients (server_after events) (to_room userId) →
     connection socket ∈ events ∧ join socket userId ∈ events)
  ∧ (∀ rooms socket userId,
       socket ∈ dom rooms →
       socket ∈ recipients (on_socket_event rooms (join socket userId)) (to_room userId)).
Proof.
  split.
  - intros events socket userId (joined & Hat & Hin)%room_recipients.
    destruct (rooms_were_joined events socket joined Hat) as [Hc Hj]. split; auto.
  - intros rooms socket userId [joined Hat]%elem_of_dom.
    apply room_recipients. exists (joined ∪ {[userId]}). split.
    + simpl. by rewrite lookup_alter_eq, Hat.
    + apply elem_of_union. right. by apply elem_of_singleton.
Qed.

Lemma start_response_user (task_id userId : nat) (now : Z) (db db' : Store)
  (timeEntry : TimeEntry.t) :
  startTimeTracking task_id userId now db = (json timeEntry, db') →
  TimeEntry.user_id timeEntry = userId.
Proof.
  unfold startTimeTracking.
  destruct (single (select_task task_id userId db)); [|discriminate].
  destruct (single (select_active task_id userId db)); [discriminate|].
  simpl. by intros [= <- _].
Qed.

Lemma stop_response_user (task_id userId : nat) (now : Z) (db db' : Store)
  (updatedEntry : TimeEntry.t) :
  stopTimeTracking task_id userId now db = (json updatedEntry, db') →
  TimeEntry.user_id updatedEntry = userId.
Proof.
  intros (timeEntry & Hfind & _ & -> & _)%stop_inversion.
  assert (timeEntry ∈ select_active task_id userId db) as Hin by (rewrite Hfind; left).
  apply list_elem_of_filter in Hin as [(_ & Hu & _) _]. done.
Qed.

Lemma updated_row_user (id userId : nat) (columns : Task.t → Task.t) (db : Store)
  (task : Task.t) :
  (∀ t, Task.user_id (columns t) = Task.user_id t) →
  single (update_task id userId columns db).1 = Some task →
  Task.user_id task = userId.
Proof.
  intros Hkeeps Hone%single_Some. simpl in Hone.
  assert (task ∈ columns <$> select_task id userId db) as Hin by (rewrite Hone; left).
  apply list_elem_of_fmap in Hin as (t & -> & Ht).
  apply list_elem_of_filter in Ht as [[_ Hu] _]. by rewrite Hkeeps.
Qed.

Ltac listed := solve [repeat first [left | right]].

(** What a request hands to the socket server: messages for the caller's
    own room, or the announcement of a deletion to everyone. *)
Lemma serve_targets (io : option (gmap nat (gset nat))) (userId : nat) (now : Z)
  (rq : Request) (db : Store) (e : Emission) :
  e ∈ (serve io userId now rq db).2 →
  (target e = to_room userId
   ∧ event e ∈ ["task:created"; "task:updated"; "time:started"; "time:stopped";
                "statistics:updated"])
  ∨ (target e = to_everyone ∧ event e = "task:deleted"
     ∧ ∃ id, rq = remove_task id ∧ payload e = of_taskId id).
Proof.
  destruct rq as [t|t|t|sd ed|sd ed|sd ed|sd ed|priority| |id|id priority|id value|id];
    simpl; try (by intros ?%elem_of_nil).
  - destruct (startTimeTracking _ _ _ _) as [[timeEntry|code] db'] eqn:Hstart; simpl;
      [|by intros ?%elem_of_nil].
    destruct io as [rooms|]; simpl; [|by intros ?%elem_of_nil].
    intros ->%list_elem_of_singleton. left. simpl.
    rewrite (start_response_user _ _ _ _ _ _ Hstart). split; [done|listed].
  - destruct (stopTimeTracking _ _ _ _) as [[updatedEntry|code] db'] eqn:Hstop; simpl;
      [|by intros ?%elem_of_nil].
    destruct io as [rooms|]; simpl; [|by intros ?%elem_of_nil].
    intros ->%list_elem_of_singleton. left. simpl.
    rewrite (stop_response_user _ _ _ _ _ _ Hstop). split; [done|listed].
  - destruct io as [rooms|]; simpl; [|by intros ?%elem_of_nil].
    intros ->%list_elem_of_singleton. left. simpl. split; [done|listed].
  - destruct io as [rooms|]; simpl; [|by intros ?%elem_of_nil].
    intros ->%list_elem_of_singleton. left. simpl. split; [done|listed].
  - unfold updateTask.
    destruct (update_task _ _ _ _) as [rows db'] eqn:Hupd.
    unfold single_result.
    destruct (single rows) as [task|] eqn:Hone; simpl; [|by intros ?%elem_of_nil].
    destruct io as [rooms|]; simpl; [|by intros ?%elem_of_nil].
    intros ->%list_elem_of_singleton. left. simpl. split; [|listed].
    f_equal. apply (updated_row_user id userId (set_priority priority) db); [done|].
    by rewrite Hupd.
  - unfold updateTaskStatus.
    destruct (status_of_string value) as [newStatus|]; [|by intros ?%elem_of_nil].
    destruct (update_task _ _ _ _) as [rows db'] eqn:Hupd.
    unfold single_result.
    destruct (single rows) as [task|] eqn:Hone; simpl; [|by intros ?%elem_of_nil].
    destruct io as [rooms|]; simpl; [|by intros ?%elem_of_nil].
    intros ->%list_elem_of_singleton. left. simpl. split; [|listed].
    f_equal. apply (updated_row_user id userId (set_status newStatus) db); [done|].
    by rewrite Hupd.
  - destruct io as [rooms|]; simpl; [|by intros ?%elem_of_nil].
    intros ->%list_elem_of_singleton. right. simpl. eauto.
Qed.

(** X12: whatever request is served, each message it emits reaches only
    sockets that have connected; and, unless the message announces a
    deletion, only sockets that have sent [join] with the caller's id. *)
Theorem messages_reach_joined_sockets (events : list SocketEvent) (userId : nat)
  (now : Z) (rq : Request) (db : Store) (e : Emission) (socket : nat) :
  e ∈ (serve (Some (server_after events)) userId now rq db).2 →
  socket ∈ delivered_to (Some (server_after events)) e →
  connection socket ∈ events
  ∧ (join socket userId ∈ events ∨ event e = "task:deleted").
Proof.
  intros [[Htarget _]|(Htarget & Hevent & _)]%serve_targets; simpl; rewrite Htarget.
  - intros (joined & Hat & Hin)%room_recipients.
    destruct (rooms_were_joined events socket joined Hat) as [Hc Hj]. auto.
  - simpl. intros [joined Hat]%elem_of_dom.
    destruct (rooms_were_joined events socket joined Hat) as [Hc _]. auto.
Qed.

Lemma messages_reach_joined_sockets_witness :
  connection 5 ∈ one_listener
  ∧ (join 5 1 ∈ one_listener
     ∨ event (mkEmission (to_room 1) "time:started"
                (of_timeEntry (TimeEntry.mk 1 7 1 100 None))) = "task:deleted").
Proof.
  apply (messages_reach_joined_sockets one_listener 1 100 (start_timer 7) idle_db
           (mkEmission (to_room 1) "time:started"
              (of_timeEntry (TimeEntry.mk 1 7 1 100 None))) 5).
  - simpl. left.
  - vm_compute. reflexivity.
Defined.

(** X13: a request to delete a task the caller does not own (or that
    does not exist) leaves the store as it was, is answered 200, and
    still announces [task:deleted] for that id to every connected
    socket, whatever room it joined. *)
Theorem unowned_delete_is_announced (rooms : gmap nat (gset nat)) (id userId : nat)
  (db : Store) :
  ¬ owns db userId id →
  ∃ e,
    deleteTask (Some rooms) id userId db
    = (reply 200 "Task deleted successfully", db, [e])
    ∧ event e = "task:deleted"
    ∧ payload e = of_taskId id
    ∧ delivered_to (Some rooms) e = dom rooms.
Proof.
  intros Hnot. eexists. unfold deleteTask. rewrite (delete_task_miss id userId db Hnot).
  split; [reflexivity|]. done.
Qed.

Lemma unowned_delete_is_announced_witness :
  ∃ e,
    deleteTask (Some (server_after one_listener)) 7 2 idle_db
    = (reply 200 "Task deleted successfully", idle_db, [e])
    ∧ event e = "task:deleted"
    ∧ payload e = of_taskId 7
    ∧ delivered_to (Some (server_after one_listener)) e = dom (server_after one_listener).
Proof.
  apply (unowned_delete_is_announced (server_after one_listener) 7 2 idle_db).
  intros (t & Hin & _ & Huser). simpl in Hin.
  apply list_elem_of_singleton in Hin as ->. discriminate Huser.
Defined.

(** X14: no request makes the server emit an event the dashboard
    subscribes to; every emitted event has one of the six names of the
    service, three of which the tasks page subscribes to. *)
Theorem dashboard_is_never_notified (io : option (gmap nat (gset nat))) (userId : nat)
  (now : Z) (rq : Request) (db : Store) (e : Emission) :
  e ∈ (serve io userId now rq db).2 →
  (event e ∉ dashboard_listens)
  ∧ (event e ∈ tasks_page_listens
     ∨ event e ∈ ["time:started"; "time:stopped"; "statistics:updated"]).
Proof.
  intros [[_ Hevent]|(_ & -> & _)]%serve_targets.
  - rewrite !elem_of_cons in Hevent.
    destruct Hevent as [->|[->|[->|[->|[->|[]%elem_of_nil]]]]];
      (split; [unfold dashboard_listens; rewrite !elem_of_cons, elem_of_nil;
               intros [|[|]]; done|]);
      first [left; listed|right; listed].
  - split; [|left; listed].
    unfold dashboard_listens. rewrite !elem_of_cons, elem_of_nil. intros [|[|]]; done.
Qed.

Lemma dashboard_is_never_notified_witness :
  ("task:updated" ∉ dashboard_listens)
  ∧ ("task:updated" ∈ tasks_page_listens
     ∨ "task:updated" ∈ ["time:started"; "time:stopped"; "statistics:updated"]).
Proof.
  apply (dashboard_is_never_notified (Some (server_after one_listener)) 1 0
           (update_task_status 7 "completed") idle_db
           (mkEmission (to_room 1) "task:updated"
              (of_task (set_status completed sample_task)))).
  simpl. left.
Defined.

(** ** Durations as text *)

Lemma floor_of_quotient (x : Q) (k : positive) :
  (inject_Z (Qfloor (x / inject_Z (Z.pos k))) * inject_Z (Z.pos k) <= x)%Q
  ∧ (x < inject_Z (Qfloor (x / inject_Z (Z.pos k)) + 1) * inject_Z (Z.pos k))%Q.
Proof.
  set (q := (x / inject_Z (Z.pos k))%Q).
  assert (inject_Z (Z.pos k) * q == x)%Q as Hq by (apply Qmult_div_r; done).
  assert (0 < inject_Z (Z.pos k))%Q as Hk by (unfold Qlt; simpl; lia).
  pose proof (Qfloor_le q) as Hlo. pose proof (Qlt_floor q) as Hhi.
  split.
  - rewrite <- Hq. rewrite (Qmult_comm (inject_Z (Z.pos k))).
    apply Qmult_le_compat_r; [done|]. by apply Qlt_le_weak.
  - rewrite <- Hq at 1. rewrite (Qmult_comm (inject_Z (Z.pos k))).
    apply Qmult_lt_compat_r; done.
Qed.

(** X15: for a duration that is not negative, the text shows whole hours
    and whole minutes, the minutes between 0 and 59, and the duration
    lies in the minute that the text names. *)
Theorem formatDuration_hours_minutes (ms : Q) :
  (0 <= ms)%Q →
  ∃ hours minutes : Z,
    formatDuration ms = pretty hours +:+ "h " +:+ pretty minutes +:+ "m"
    ∧ 0 ≤ hours ∧ 0 ≤ minutes ≤ 59
    ∧ (inject_Z (hours * 3600000 + minutes * 60000) <= ms)%Q
    ∧ (ms < inject_Z (hours * 3600000 + (minutes + 1) * 60000))%Q.
Proof.
  intros Hms. unfold formatDuration, js_floor.
  set (hours := Qfloor (ms / inject_Z (Z.pos MS_PER_HOUR))).
  assert (0 ≤ hours) as Hh.
  { replace 0 with (Qfloor 0) by reflexivity. apply Qfloor_resp_le.
    apply Qle_shift_div_l; [done|]. by rewrite Qmult_0_l. }
  assert (js_mod ms MS_PER_HOUR == ms - inject_Z hours * inject_Z (Z.pos MS_PER_HOUR))%Q as Hmod.
  { unfold js_mod. fold hours.
    destruct (Qle_bool 0 (ms / inject_Z (Z.pos MS_PER_HOUR))) eqn:Hsign; [reflexivity|].
    assert (Qle_bool 0 (ms / inject_Z (Z.pos MS_PER_HOUR)) = true); [|congruence].
    apply Qle_bool_iff. apply Qle_shift_div_l; [done|]. by rewrite Qmult_0_l. }
  destruct (floor_of_quotient ms MS_PER_HOUR) as [Hlo Hhi]. fold hours in Hlo, Hhi.
  set (r := js_mod ms MS_PER_HOUR) in *.
  destruct (floor_of_quotient r MS_PER_MINUTE) as [Hmlo Hmhi].
  set (minutes := Qfloor (r / inject_Z (Z.pos MS_PER_MINUTE))) in *.
  exists hours, minutes. split; [done|]. split; [done|].
  rewrite inject_Z_plus in Hhi, Hmhi.
  assert (0 <= r)%Q as Hr0 by (rewrite Hmod; simpl in *; lra).
  assert (0 ≤ minutes) as Hm0.
  { replace 0 with (Qfloor 0) by reflexivity. apply Qfloor_resp_le.
    apply Qle_shift_div_l; [done|]. by rewrite Qmult_0_l. }
  rewrite Hmod in Hmlo, Hmhi.
  change (inject_Z (Z.pos MS_PER_HOUR)) with (3600000 # 1)%Q in *.
  change (inject_Z (Z.pos MS_PER_MINUTE)) with (60000 # 1)%Q in *.
  change (inject_Z 1) with 1%Q in *.
  split; [|split].
  - split; [done|].
    assert (inject_Z minutes < 60)%Q as Hlt by lra.
    change 60%Q with (inject_Z 60) in Hlt. rewrite <- Zlt_Qlt in Hlt. lia.
  - rewrite inject_Z_plus, !inject_Z_mult.
    change (inject_Z 3600000) with (3600000 # 1)%Q.
    change (inject_Z 60000) with (60000 # 1)%Q. lra.
  - rewrite inject_Z_plus, !inject_Z_mult, inject_Z_plus.
    change (inject_Z 3600000) with (3600000 # 1)%Q.
    change (inject_Z 60000) with (60000 # 1)%Q.
    change (inject_Z 1) with 1%Q. lra.
Qed.

Lemma formatDuration_hours_minutes_witness :
  ∃ hours minutes : Z,
    formatDuration 5400500 = pretty hours +:+ "h " +:+ pretty minutes +:+ "m"
    ∧ 0 ≤ hours ∧ 0 ≤ minutes ≤ 59
    ∧ (inject_Z (hours * 3600000 + minutes * 60000) <= 5400500)%Q
    ∧ (5400500 < inject_Z (hours * 3600000 + (minutes + 1) * 60000))%Q.
Proof.
  apply (formatDuration_hours_minutes 5400500). unfold Qle. simpl. lia.
Defined.

(** ** The statistics service of the client *)

Lemma day_number_bounds (t day : Z) :
  day_number t = day ↔ midnight day ≤ t ≤ midnight (day + 1) - 1.
Proof.
  unfold day_number, midnight.
  assert (0 < MS_PER_DAY) as Hpos by done.
  split.
  - intros <-. pose proof (Z.mul_div_le t MS_PER_DAY Hpos).
    pose proof (Z.mul_succ_div_gt t MS_PER_DAY Hpos). lia.
  - intros [Hlo Hhi]. symmetry. apply (Z.div_unique_pos t MS_PER_DAY day (t - day * MS_PER_DAY)); lia.
Qed.

Lemma day_window (t date : Z) :
  gte (Some t) (Some (startOfDay date)) ∧ lte (Some t) (Some (endOfDay date))
  ↔ day_number t = day_number date.
Proof. unfold startOfDay, endOfDay. simpl. by rewrite day_number_bounds. Qed.

(** X16: the task statistics the client asks for a date are always
    served, and they are the statistics of the caller's tasks created on
    that calendar day and of no other task. *)
Theorem client_task_statistics_of_the_day (userId : nat) (date : Z) (db : Store) :
  statisticsService_getTaskStatistics userId date db
  = Some (taskStatistics
            (filter (λ t, Task.user_id t = userId
                          ∧ day_number (Task.created_at t) = day_number date)
                    (tasks db))).
Proof.
  unfold statisticsService_getTaskStatistics, getTaskStatistics, select_tasks. simpl.
  do 2 f_equal. apply list_filter_iff. intros t.
  rewrite <- day_window. tauto.
Qed.

(** X17: the client's productivity metrics never fail.  Their
    [total_completed_tasks] is the number of the caller's tasks completed
    between the start of the day thirty days before [date] and [now]; it
    is the default record of zeros exactly when there is none. *)
Theorem client_metrics_count_the_window (userId : nat) (date now today : Z) (db : Store) :
  let window :=
    select_completed userId (Some (startOfDay (date - 30 * MS_PER_DAY))) (Some now) db in
  let metrics := statisticsService_getProductivityMetrics userId date now today db in
  total_completed_tasks metrics = length window
  ∧ (window = [] ↔ metrics = no_metrics)
  ∧ startOfDay (date - 30 * MS_PER_DAY) = midnight (day_number date - 30).
Proof.
  intros window metrics. unfold metrics, statisticsService_getProductivityMetrics,
    getProductivityMetrics. fold window.
  split; [|split].
  - destruct window as [|task rest]; [done|].
    destruct (productivityMetrics_days task rest today)
      as (firstDay & days & lastDay & _ & _ & ->). done.
  - destruct window as [|task rest]; [done|].
    destruct (productivityMetrics_days task rest today)
      as (firstDay & days & lastDay & _ & _ & ->).
    split; [done|]. intros [=].
  - unfold startOfDay. f_equal. unfold day_number.
    replace (date - 30 * MS_PER_DAY) with (date + (-30) * MS_PER_DAY) by lia.
    rewrite Z.div_add by done. lia.
Qed.

(** ** Several open entries *)

Lemma stop_with_several_open (task_id userId : nat) (now : Z) (db : Store) :
  (2 ≤ length (select_active task_id userId db))%nat →
  stopTimeTracking task_id userId now db = (status 404, db).
Proof.
  intros Hlen. unfold stopTimeTracking.
  destruct (select_active task_id userId db) as [|a [|b l]]; simpl in *; [lia|lia|done].
Qed.

Lemma start_with_several_open (task_id userId : nat) (now : Z) (db : Store) :
  (2 ≤ length (select_active task_id userId db))%nat →
  (2 ≤ length (select_active task_id userId
                 (startTimeTracking task_id userId now db).2))%nat
  ∧ (startTimeTracking task_id userId now db).1 ≠ status 400.
Proof.
  intros Hlen. unfold startTimeTracking.
  destruct (single (select_task task_id userId db)); [|done].
  assert (single (select_active task_id userId db) = None) as ->.
  { apply single_None. lia. }
  simpl. split; [|done]. unfold select_active in *. simpl.
  rewrite filter_app, length_app. lia.
Qed.

(** X18: once a task has two open entries of a user (as the interleaved
    start requests leave it), no sequence of his start and stop requests
    for the task repairs it: every stop is answered 404, no start is
    answered 400, and at least two entries stay open. *)
Theorem several_open_entries_stay_open (task_id userId : nat)
  (calls : list TimerCall) (db : Store) :
  (2 ≤ length (select_active task_id userId db))%nat →
  (2 ≤ length (select_active task_id userId (run_calls task_id userId calls db).2))%nat
  ∧ ∀ i call response,
      calls !! i = Some call →
      (run_calls task_id userId calls db).1 !! i = Some response →
      match call with
      | press_stop _ => response = status 404
      | press_start _ => response ≠ status 400
      end.
Proof.
  revert db. induction calls as [|call calls IH]; intros db Hlen.
  { split; [done|]. intros i call response Hcall. by rewrite lookup_nil in Hcall. }
  cbn [run_calls].
  destruct call as [now|now].
  - destruct (start_with_several_open task_id userId now db Hlen) as [Hlen' Hnot400].
    destruct (startTimeTracking task_id userId now db) as [response db'].
    destruct (IH db' Hlen') as [Hend Hresponses].
    destruct (run_calls task_id userId calls db') as [responses db''].
    split; [done|]. intros [|i] call r; simpl.
    + by intros [= <-] [= <-].
    + apply Hresponses.
  - rewrite (stop_with_several_open task_id userId now db Hlen).
    destruct (IH db Hlen) as [Hend Hresponses].
    destruct (run_calls task_id userId calls db) as [responses db''].
    split; [done|]. intros [|i] call r; simpl.
    + by intros [= <-] [= <-].
    + apply Hresponses.
Qed.

Lemma several_open_entries_stay_open_witness :
  (2 ≤ length (select_active 7 1
                 (run_calls 7 1 [press_stop 300; press_start 400; press_stop 500]
                    raced_db).2))%nat
  ∧ (run_calls 7 1 [press_stop 300; press_start 400; press_stop 500] raced_db).1 !! 0%nat
    = Some (status 404).
Proof.
  destruct (several_open_entries_stay_open 7 1
              [press_stop 300; press_start 400; press_stop 500] raced_db)
    as [Hopen _]; [vm_compute; lia|].
  split; [exact Hopen|reflexivity].
Defined.

(** ** Breakdowns add up *)

Lemma breakdown_accumulate `{Countable K} (key : K) (amount : Z) (m : gmap K Z) :
  breakdown_total (accumulate key amount m) = breakdown_total m + amount.
Proof.
  unfold breakdown_total, accumulate.
  destruct (m !! key) as [v|] eqn:Hkey; simpl.
  - rewrite <- insert_delete_eq.
    rewrite map_fold_insert_L; [|intros; lia|apply lookup_delete_eq].
    rewrite (map_fold_delete_L _ _ key v m); [cbv beta; lia|intros; lia|done].
  - rewrite map_fold_insert_L; [cbv beta; lia|intros; lia|done].
Qed.

Lemma breakdown_total_empty `{Countable K} : breakdown_total (∅ : gmap K Z) = 0.
Proof. unfold breakdown_total. apply map_fold_empty. Qed.

Lemma breakdown_by_key `{Countable K} (key : Joined.t → K) (rows : list Joined.t)
  (m : gmap K Z) :
  breakdown_total (foldl (λ acc entry, accumulate (key entry) (duration entry) acc) m rows)
  = breakdown_total m + sum_of (duration <$> rows).
Proof.
  revert m. induction rows as [|entry rows IH]; intros m.
  - unfold sum_of. simpl. lia.
  - cbn [foldl]. rewrite IH, breakdown_accumulate.
    change (sum_of (duration <$> entry :: rows))
      with (duration entry + sum_of (duration <$> rows)).
    lia.
Qed.

Lemma breakdown_by_priority (rows : list Joined.t) (m m' : gmap Priority Z) :
  foldl (λ acc entry,
           acc ← acc;
           task ← Joined.tasks entry;
           Some (accumulate (Task.priority task) (duration entry) acc))
        (Some m) rows = Some m' →
  breakdown_total m' = breakdown_total m + sum_of (duration <$> rows).
Proof.
  revert m. induction rows as [|entry rows IH]; intros m.
  - simpl. intros [= <-]. unfold sum_of. simpl. lia.
  - cbn [foldl]. destruct (Joined.tasks entry) as [task|].
    + intros Hrest.
      apply (IH (accumulate (Task.priority task) (duration entry) m)) in Hrest.
      rewrite Hrest, breakdown_accumulate.
      change (sum_of (duration <$> entry :: rows))
        with (duration entry + sum_of (duration <$> rows)).
      lia.
    + assert (∀ l : list Joined.t,
        foldl (λ acc entry,
                 acc ← acc;
                 task ← Joined.tasks entry;
                 Some (accumulate (Task.priority task) (duration entry) acc))
              None l = None) as Hnone by (induction l; done).
      by rewrite Hnone.
Qed.

(** X19: whenever the time statistics are served, the amounts by
    priority add up to [total_time_ms], and so do the amounts by day of
    the week. *)
Theorem time_breakdowns_add_up (userId : nat) (start_date end_date : option Z)
  (db : Store) (statistics : TimeStatistics) :
  getTimeStatistics userId start_date end_date db = json statistics →
  breakdown_total (time_by_priority statistics) = total_time_ms statistics
  ∧ breakdown_total (time_by_day statistics) = total_time_ms statistics.
Proof.
  unfold getTimeStatistics.
  destruct (timeStatistics (select_closed userId start_date end_date db))
    as [s|] eqn:Hs; [|discriminate].
  intros [= <-]. unfold timeStatistics in Hs.
  destruct (foldl _ (Some ∅) (select_closed userId start_date end_date db))
    as [byPriority|] eqn:Hfold; [|discriminate].
  apply breakdown_by_priority in Hfold.
  injection Hs as <-. cbn [time_by_priority time_by_day total_time_ms].
  rewrite total_is_sum, Z.add_0_l, Hfold, breakdown_by_key, !breakdown_total_empty.
  done.
Qed.

Lemma time_breakdowns_add_up_witness :
  ∃ statistics,
    getTimeStatistics 1 None None history_db = json statistics
    ∧ breakdown_total (time_by_priority statistics) = total_time_ms statistics
    ∧ breakdown_total (time_by_day statistics) = total_time_ms statistics.
Proof.
  assert (∃ statistics, getTimeStatistics 1 None None history_db = json statistics)
    as [statistics Hget] by (eexists; reflexivity).
  exists statistics. split; [exact Hget|].
  exact (time_breakdowns_add_up 1 None None history_db statistics Hget).
Defined.

Lemma tally_total_step (acc : gmap Z nat) (task : Task.t) :
  tally_total (tally acc task) = S (tally_total acc).
Proof.
  unfold tally_total, tally.
  destruct (acc !! day_number (Task.updated_at task)) as [n|] eqn:Hday; simpl.
  - rewrite <- insert_delete_eq.
    rewrite map_fold_insert_L; [|intros; lia|apply lookup_delete_eq].
    rewrite (map_fold_delete_L _ _ (day_number (Task.updated_at task)) n acc);
      [cbv beta; lia|intros; lia|done].
  - rewrite map_fold_insert_L; [cbv beta; lia|intros; lia|done].
Qed.

Lemma tally_total_foldl (acc : gmap Z nat) (completedTasks : list Task.t) :
  tally_total (foldl tally acc completedTasks)
  = (tally_total acc + length completedTasks)%nat.
Proof.
  revert acc. induction completedTasks as [|task rest IH]; intros acc; simpl; [lia|].
  rewrite IH, tally_total_step. lia.
Qed.

(** X20: whenever the productivity metrics are served, the counts per
    day add up to [total_completed_tasks], which is the number of
    completed tasks of the caller in the window and is not 0. *)
Theorem tasks_per_day_add_up (userId : nat) (start_date end_date : option Z)
  (today : Z) (db : Store) (metrics : ProductivityMetrics) :
  getProductivityMetrics userId start_date end_date today db = json metrics →
  tally_total (tasks_per_day metrics) = total_completed_tasks metrics
  ∧ total_completed_tasks metrics
    = length (select_completed userId start_date end_date db)
  ∧ (0 < total_completed_tasks metrics)%nat.
Proof.
  unfold getProductivityMetrics.
  destruct (select_completed userId start_date end_date db) as [|task rest];
    [discriminate|].
  destruct (productivityMetrics_days task rest today)
    as (firstDay & days & lastDay & _ & _ & ->).
  intros [= <-]. cbn [tasks_per_day total_completed_tasks].
  split; [|split; [done|simpl; lia]].
  rewrite tally_total_foldl, tally_total_step.
  assert (tally_total ∅ = 0%nat) as -> by (unfold tally_total; apply map_fold_empty).
  done.
Qed.

Lemma tasks_per_day_add_up_witness :
  ∃ metrics,
    getProductivityMetrics 1 None None (midnight 5) streak_db = json metrics
    ∧ tally_total (tasks_per_day metrics) = total_completed_tasks metrics
    ∧ total_completed_tasks metrics = 3%nat.
Proof.
  assert (∃ metrics, getProductivityMetrics 1 None None (midnight 5) streak_db
                     = json metrics) as [metrics Hget] by (eexists; reflexivity).
  destruct (tasks_per_day_add_up 1 None None (midnight 5) streak_db metrics Hget)
    as (Hsum & Hcount & _).
  exists metrics. split; [exact Hget|]. split; [exact Hsum|exact Hcount].
Defined.

(** ** Counting tasks *)

(** X21: the task statistics are always served; every task of the window
    is counted under exactly one status and under exactly one priority. *)
Theorem task_counts_partition (userId : nat) (start_date end_date : option Z)
  (db : Store) :
  ∃ statistics,
    getTaskStatistics userId start_date end_date db = json statistics
    ∧ total_tasks statistics = length (select_tasks userId start_date end_date db)
    ∧ total_tasks statistics
      = (completed_tasks statistics + in_progress_tasks statistics
         + pending_tasks statistics)%nat
    ∧ total_tasks statistics
      = (ByPriority.high (tasks_by_priority statistics)
         + ByPriority.medium (tasks_by_priority statistics)
         + ByPriority.low (tasks_by_priority statistics))%nat.
Proof.
  eexists. split; [reflexivity|]. split; [reflexivity|].
  generalize (select_tasks userId start_date end_date db). intros listed.
  simpl. unfold count. split.
  - induction listed as [|t listed IH]; [done|].
    rewrite !filter_cons. simpl length at 1.
    destruct (Task.status t) eqn:Hst;
      repeat (first [rewrite decide_True by done | rewrite decide_False by done]);
      simpl; lia.
  - induction listed as [|t listed IH]; [done|].
    rewrite !filter_cons. simpl length at 1.
    destruct (Task.priority t) eqn:Hp;
      repeat (first [rewrite decide_True by done | rewrite decide_False by done]);
      simpl; lia.
Qed.
